(** * Rotation metrics of the RRG dashboard (src/app.py)

    A shallow embedding of the computational part of the dashboard script:
    the quadrant classifier, the daily entry signal, the relative-strength
    pipeline, the ranking table and the per-quadrant counts.

    Numbers.  The script computes with Python/NumPy floats.  The tables,
    the ranking and the run are modelled over exact rationals extended by
    the IEEE special values [PInf], [NInf] and [NaN]: the arithmetic of
    the special values and the behaviour of comparisons on [NaN] are as in
    IEEE 754, the rounding of finite results is not modelled, and zero
    carries no sign.  What rounding decides (the three tests of the daily
    entry signal, the rotation coordinates) is stated over binary64, in
    the module [Float64]. *)

From Stdlib Require Import String QArith Qround ZArith Bool Arith Lia List.
From Stdlib Require Import Permutation Sorted.
From Stdlib Require Floats Uint63.
Import ListNotations.

Local Open Scope string_scope.
Local Open Scope Q_scope.

(** ** Float values *)

Inductive value : Type :=
| Fin (q : Q)
| PInf
| NInf
| NaN.

Definition is_finite (v : value) : bool :=
  match v with Fin _ => true | _ => false end.

Definition isnan (v : value) : bool :=
  match v with NaN => true | _ => false end.

Module FloatOps.

(** The infinity that has the sign recorded by a comparison with zero;
    a zero operand gives [NaN]. *)
Definition inf_of_sign (c : comparison) : value :=
  match c with Gt => PInf | Lt => NInf | Eq => NaN end.

Definition fneg (a : value) : value :=
  match a with
  | Fin x => Fin (- x)
  | PInf => NInf
  | NInf => PInf
  | NaN => NaN
  end.

Definition fadd (a b : value) : value :=
  match a, b with
  | NaN, _ | _, NaN => NaN
  | PInf, NInf | NInf, PInf => NaN
  | PInf, _ | _, PInf => PInf
  | NInf, _ | _, NInf => NInf
  | Fin x, Fin y => Fin (x + y)
  end.

Definition fsub (a b : value) : value := fadd a (fneg b).

Definition fmul (a b : value) : value :=
  match a, b with
  | NaN, _ | _, NaN => NaN
  | Fin x, Fin y => Fin (x * y)
  | Fin x, PInf | PInf, Fin x => inf_of_sign (x ?= 0)
  | Fin x, NInf | NInf, Fin x => inf_of_sign (0 ?= x)
  | PInf, PInf | NInf, NInf => PInf
  | PInf, NInf | NInf, PInf => NInf
  end.

(** Division never raises on floats: [x / 0] is an infinity of the sign
    of [x], and [0 / 0] is [NaN]. *)
Definition fdiv (a b : value) : value :=
  match a, b with
  | NaN, _ | _, NaN => NaN
  | Fin x, Fin y =>
      if Qeq_bool y 0 then inf_of_sign (x ?= 0) else Fin (x / y)
  | Fin _, PInf | Fin _, NInf => Fin 0
  | PInf, Fin y => match y ?= 0 with Lt => NInf | _ => PInf end
  | NInf, Fin y => match y ?= 0 with Lt => PInf | _ => NInf end
  | _, _ => NaN
  end.

(** [a < b]; false as soon as one side is [NaN]. *)
Definition fltb (a b : value) : bool :=
  match a, b with
  | NaN, _ | _, NaN => false
  | Fin x, Fin y => match x ?= y with Lt => true | _ => false end
  | _, NInf => false
  | PInf, _ => false
  | NInf, _ => true
  | Fin _, PInf => true
  end.

(** [a <= b]; false as soon as one side is [NaN]. *)
Definition fleb (a b : value) : bool :=
  match a, b with
  | NaN, _ | _, NaN => false
  | Fin x, Fin y => match x ?= y with Gt => false | _ => true end
  | NInf, _ => true
  | _, PInf => true
  | _, _ => false
  end.

Definition fgtb (a b : value) : bool := fltb b a.
Definition fgeb (a b : value) : bool := fleb b a.

End FloatOps.
Import FloatOps.

(** ** Exceptions and the reader/error monad of a function body

    A Python function receives a reference to a mutable object.  A body is
    run against the object it was handed and returns the object as it is
    afterwards together with a result or the exception raised. *)

Inductive exn : Type :=
| KeyError (key : string)
| IndexError
| NameError (name : string).

Definition result (A : Type) : Type := (exn + A)%type.

Definition Ok {A} (a : A) : result A := inr a.
Definition Raise {A} (e : exn) : result A := inl e.

Definition rbind {A B} (r : result A) (k : A -> result B) : result B :=
  match r with inl e => inl e | inr a => k a end.

(** ** Series and frames *)

Definition Series : Type := list value.

(** A frame as [yfinance] and pandas hand it around: a row index of
    timestamps (day numbers) and named columns of values. *)
Record DataFrame : Type := mkFrame {
  index : list Z;
  columns : list (string * Series)
}.

Definition empty_frame : DataFrame := mkFrame [] [].

Fixpoint lookup {A} (k : string) (l : list (string * A)) : option A :=
  match l with
  | [] => None
  | (k', v) :: l' => if String.eqb k k' then Some v else lookup k l'
  end.

Definition has_column (k : string) (df : DataFrame) : bool :=
  match lookup k (columns df) with Some _ => true | None => false end.

(** [df.empty]: some axis has length zero. *)
Definition frame_empty (df : DataFrame) : bool :=
  match index df, columns df with
  | [], _ | _, [] => true
  | _, _ => false
  end.

Module Pandas.

Fixpoint zipwith {A B C} (f : A -> B -> C) (l : list A) (m : list B) : list C :=
  match l, m with
  | a :: l', b :: m' => f a b :: zipwith f l' m'
  | _, _ => []
  end.

(** [s.diff()]: first entry missing, then the successive differences. *)
Fixpoint diff_from (prev : value) (s : Series) : Series :=
  match s with
  | [] => []
  | x :: t => fsub x prev :: diff_from x t
  end.

Definition diff (s : Series) : Series :=
  match s with
  | [] => []
  | x :: t => NaN :: diff_from x t
  end.

(** [s.clip(lower=lo)] and [s.clip(upper=hi)], missing values kept. *)
Definition clip_lower (lo v : value) : value := if fltb v lo then lo else v.
Definition clip_upper (hi v : value) : value := if fltb hi v then hi else v.

Definition fsum (l : Series) : value := fold_left fadd l (Fin 0).

(** The trailing window of [w] positions ending at position [i]. *)
Definition window (w i : nat) (s : Series) : Series :=
  skipn (S i - w) (firstn (S i) s).

Definition of_nat (n : nat) : value := Fin (inject_Z (Z.of_nat n)).

(** [s.rolling(w).mean()] with the default [min_periods = w]: the
    observations of a window are its finite entries (infinities are
    turned into missing values first), and the mean is missing unless
    the window holds [w] observations. *)
Definition window_mean (w : nat) (win : Series) : value :=
  let obs := filter is_finite win in
  if (w <=? length obs)%nat then fdiv (fsum obs) (of_nat (length obs))
  else NaN.

Definition rolling_mean (w : nat) (s : Series) : Series :=
  map (fun i => window_mean w (window w i s)) (seq 0 (length s)).

(** [s.iloc[-k]] for [k >= 1]. *)
Definition iloc_neg (k : nat) (s : Series) : result value :=
  if (k <=? length s)%nat then
    match nth_error s (length s - k) with
    | Some v => Ok v
    | None => Raise IndexError
    end
  else Raise IndexError.

(** [s.iloc[-n:]]: the last [n] entries, all of them when there are fewer. *)
Definition tail_slice (n : nat) (s : Series) : Series :=
  skipn (length s - n) s.

End Pandas.
Import Pandas.

(** ** Helper functions of the script *)

(** [get_quadrant], lines 19-27. *)
Definition get_quadrant (rs_ratio rs_momentum : value) : string :=
  if fgeb rs_ratio (Fin 100) && fgeb rs_momentum (Fin 100) then "Leading"
  else if fgeb rs_ratio (Fin 100) && fltb rs_momentum (Fin 100) then "Weakening"
  else if fltb rs_ratio (Fin 100) && fltb rs_momentum (Fin 100) then "Lagging"
  else "Improving".

(** A function body that is handed a frame. *)
Definition Body (A : Type) : Type := DataFrame -> result A * DataFrame.

Definition ret {A} (a : A) : Body A := fun df => (Ok a, df).

Definition bind {A B} (m : Body A) (k : A -> Body B) : Body B :=
  fun df =>
    match m df with
    | (inl e, df') => (inl e, df')
    | (inr a, df') => k a df'
    end.

Definition lift {A} (r : result A) : Body A := fun df => (r, df).

(** [df[key].copy()]: a fresh copy of a column of the argument. *)
Definition getitem_copy (key : string) : Body Series :=
  fun df =>
    match lookup key (columns df) with
    | Some s => (Ok s, df)
    | None => (Raise (KeyError key), df)
    end.

Declare Scope body_scope.
Delimit Scope body_scope with body.
Notation "x <- m ;; k" := (bind m (fun x => k))
  (at level 61, m at next level, right associativity) : body_scope.

(** The RSI of a relative-strength value, line 46. *)
Definition rsi_of_rs (rs : value) : value :=
  fsub (Fin 100) (fdiv (Fin 100) (fadd (Fin 1) rs)).

(** [daily_entry_signal], lines 30-53. *)
Definition daily_entry_signal : Body string :=
  (close <- getitem_copy "Close" ;;
   if (length close <? 21)%nat then ret "NO"
   else
     let sma20 := rolling_mean 20 close in
     let delta := diff close in
     let gain := map (clip_lower (Fin 0)) delta in
     let loss := map fneg (map (clip_upper (Fin 0)) delta) in
     let avg_gain := rolling_mean 14 gain in
     let avg_loss := rolling_mean 14 loss in
     let rs := zipwith fdiv avg_gain avg_loss in
     let rsi := map rsi_of_rs rs in
     price_now <- lift (iloc_neg 1 close) ;;
     sma_now <- lift (iloc_neg 1 sma20) ;;
     rsi_now <- lift (iloc_neg 1 rsi) ;;
     rsi_prev <- lift (iloc_neg 2 rsi) ;;
     ret (if fgtb price_now sma_now && fgtb rsi_now (Fin 55)
             && fgtb rsi_now rsi_prev
          then "YES" else "NO"))%body.

(** A frame holding a daily close series. *)
Definition daily_frame (close : Series) : DataFrame :=
  mkFrame (map Z.of_nat (seq 0 (length close))) [("Close", close)].

Definition Qs (l : list Z) : Series := map (fun z => Fin (inject_Z z)) l.

(** ** The script, top to bottom *)

(** How a run of the script ends: it runs to its last line, it is halted
    by [st.stop()] after an error message, or an exception escapes. *)
Inductive outcome (A : Type) : Type :=
| Done (a : A)
| Stopped (message : string)
| Failed (e : exn).
Arguments Done {A} a.
Arguments Stopped {A} message.
Arguments Failed {A} e.

Definition of_result {A} (r : result A) : outcome A :=
  match r with inl e => Failed e | inr a => Done a end.

Definition obind {A B} (o : outcome A) (k : A -> outcome B) : outcome B :=
  match o with
  | Done a => k a
  | Stopped m => Stopped m
  | Failed e => Failed e
  end.

(** A series together with its index, as [df["Close"]] carries it. *)
Definition ISeries : Type := (list Z * Series)%type.

Definition frame_col (key : string) (df : DataFrame) : result ISeries :=
  match lookup key (columns df) with
  | Some s => Ok (index df, s)
  | None => Raise (KeyError key)
  end.

Module Frame.

Fixpoint at_time (t : Z) (idx : list Z) (vals : Series) : value :=
  match idx, vals with
  | t' :: idx', v :: vals' => if Z.eqb t t' then v else at_time t idx' vals'
  | _, _ => NaN
  end.

Fixpoint set_column (key : string) (s : Series) (cols : list (string * Series))
  : list (string * Series) :=
  match cols with
  | [] => [(key, s)]
  | (k, c) :: cols' =>
      if String.eqb key k then (k, s) :: cols'
      else (k, c) :: set_column key s cols'
  end.

(** A column-wise operation on a table. *)
Definition map_columns (f : Series -> Series) (cols : list (string * Series))
  : list (string * Series) :=
  map (fun c => (fst c, f (snd c))) cols.

(** [df[key] = series]: a frame with no rows takes the index of a
    non-empty series, its earlier columns becoming missing throughout;
    otherwise the series is aligned on the index of the frame, timestamps
    it lacks becoming missing values. *)
Definition setitem (df : DataFrame) (key : string) (s : ISeries) : DataFrame :=
  match index df, snd s with
  | [], _ :: _ =>
      mkFrame (fst s)
              (set_column key (snd s)
                 (map_columns (fun _ => map (fun _ => NaN) (fst s)) (columns df)))
  | idx, _ =>
      mkFrame idx
              (set_column key (map (fun t => at_time t (fst s) (snd s)) idx)
                 (columns df))
  end.

Definition row_complete (cols : list (string * Series)) (i : nat) : bool :=
  forallb (fun c => negb (isnan (nth i (snd c) NaN))) cols.

Definition keep {A} (mask : list bool) (l : list A) : list A :=
  map snd (filter fst (combine mask l)).

(** [df.dropna()]: the rows holding a missing value are removed. *)
Definition dropna (df : DataFrame) : DataFrame :=
  let mask := map (row_complete (columns df)) (seq 0 (length (index df))) in
  mkFrame (keep mask (index df))
          (map (fun c => (fst c, keep mask (snd c))) (columns df)).

(** [df[keys]] for a list of labels: a label that is no column raises. *)
Fixpoint select (keys : list string) (cols : list (string * Series))
  : result (list (string * Series)) :=
  match keys with
  | [] => Ok []
  | k :: keys' =>
      match lookup k cols with
      | None => Raise (KeyError k)
      | Some c => rbind (select keys' cols) (fun r => Ok ((k, c) :: r))
      end
  end.

End Frame.
Import Frame.

(** [round(x, 2)] on a NumPy float: to the nearest multiple of 0.01, ties
    to the even one. *)
Definition round_half_even (q : Q) : Z :=
  let f := Qfloor q in
  match ((q - inject_Z f) ?= (1 # 2))%Q with
  | Lt => f
  | Gt => (f + 1)%Z
  | Eq => if Z.even f then f else (f + 1)%Z
  end.

Definition round2 (v : value) : value :=
  match v with
  | Fin q => Fin (inject_Z (round_half_even (q * 100)) / 100)
  | _ => v
  end.

(** A row of [latest_data] / [ranking_df]. *)
Record Row : Type := mkRow {
  Sector : string;
  RS_Ratio : value;
  RS_Momentum : value;
  Quadrant : string;
  Daily_Entry : string
}.

Definition quadrant_order : list (string * nat) :=
  [("Leading", 0%nat); ("Improving", 1%nat); ("Weakening", 2%nat); ("Lagging", 3%nat)].

(** The ["Order"] column: [ranking_df["Quadrant"].map(quadrant_order)]. *)
Definition Order (r : Row) : option nat := lookup (Quadrant r) quadrant_order.

Module Sort.

(** Ascending, missing last. *)
Definition order_leb (a b : option nat) : bool :=
  match a, b with
  | _, None => true
  | None, Some _ => false
  | Some x, Some y => (x <=? y)%nat
  end.

Definition order_eqb (a b : option nat) : bool :=
  match a, b with
  | None, None => true
  | Some x, Some y => (x =? y)%nat
  | _, _ => false
  end.

(** Descending, missing last: [a] may stand before [b]. *)
Definition desc_leb (a b : value) : bool :=
  match a, b with
  | _, NaN => true
  | NaN, _ => false
  | _, _ => fgeb a b
  end.

(** The key of [sort_values(["Order", "RS-Ratio"], ascending=[True, False])]. *)
Definition row_leb (a b : Row) : bool :=
  if order_eqb (Order a) (Order b) then desc_leb (RS_Ratio a) (RS_Ratio b)
  else order_leb (Order a) (Order b).

(** A stable sort: a row goes in front of the first row that it may not
    stand behind. *)
Fixpoint insert (x : Row) (l : list Row) : list Row :=
  match l with
  | [] => [x]
  | y :: l' => if row_leb x y then x :: y :: l' else y :: insert x l'
  end.

Definition sort_values (l : list Row) : list Row := fold_right insert [] l.

End Sort.
Import Sort.

Module Counts.

Fixpoint bump (k : string) (m : list (string * nat)) : list (string * nat) :=
  match m with
  | [] => [(k, 1%nat)]
  | (k', n) :: m' =>
      if String.eqb k k' then (k', S n) :: m' else (k', n) :: bump k m'
  end.

(** [s.value_counts()]: each label that occurs, with its number of
    occurrences (the order of the labels is immaterial below). *)
Definition value_counts (l : list string) : list (string * nat) :=
  fold_left (fun m k => bump k m) l [].

(** [counts.reindex(labels, fill_value=fill)]. *)
Definition reindex (labels : list string) (fill : nat) (m : list (string * nat))
  : list (string * nat) :=
  map (fun k => (k, match lookup k m with Some n => n | None => fill end)) labels.

End Counts.
Import Counts.

(** ** Configuration of the script *)

Definition benchmark_candidates : list (string * string) :=
  [("NIFTY 50 (ETF)", "NIFTYBEES.NS");
   ("NIFTY 50 (Index)", "^NSEI");
   ("Bank Nifty (ETF)", "BANKBEES.NS")].

(** The [sectors] dict, in insertion order. *)
Definition sectors : list (string * string) :=
  [("Bank", "^NSEBANK"); ("IT", "^CNXIT"); ("FMCG", "^CNXFMCG");
   ("Auto", "^CNXAUTO"); ("Pharma", "^CNXPHARMA"); ("Metal", "^CNXMETAL");
   ("Energy", "^CNXENERGY")].

Definition keys {A} (d : list (string * A)) : list string := map fst d.

Definition quadrant_labels : list string :=
  ["Leading"; "Improving"; "Weakening"; "Lagging"].

(** What a complete run hands to the presentation code. *)
Record Outputs : Type := mkOutputs {
  out_prices : DataFrame;
  out_rs_ratio : list (string * Series);
  out_rs_momentum : list (string * Series);
  out_ranking : list Row;
  out_counts : list (string * nat);
  out_tails : list (string * (Series * Series))
}.

(** ** RRG calculations, lines 247-249 *)

Definition ratio_to_rolling_mean (s : Series) : Series :=
  zipwith fdiv (map (fmul (Fin 100)) s) (rolling_mean 14 s).

Record Rotation : Type := mkRotation {
  rs : list (string * Series);
  rs_ratio : list (string * Series);
  rs_momentum : list (string * Series)
}.

Definition rrg_calculations (names : list string) (prices : DataFrame)
  : result Rotation :=
  rbind (select names (columns prices)) (fun picked =>
  rbind (frame_col "Benchmark" prices) (fun bench =>
    let rs := map_columns (fun c => zipwith fdiv c (snd bench)) picked in
    let rs_ratio := map_columns ratio_to_rolling_mean rs in
    let rs_momentum := map_columns ratio_to_rolling_mean rs_ratio in
    Ok (mkRotation rs rs_ratio rs_momentum))).

(** [table[name]] for one label. *)
Definition column (name : string) (t : list (string * Series)) : result Series :=
  match lookup name t with
  | Some s => Ok s
  | None => Raise (KeyError name)
  end.

(** ** Ranking table, lines 263-301 *)

Definition in_list (s : string) (l : list string) : bool :=
  existsb (String.eqb s) l.

Section Ranking.

Variable rrg_timeframe : string.
Variable daily_prices : list (string * DataFrame).
Variable rot : Rotation.

(** One turn of the loop of lines 265-283. *)
Definition latest_row (sector : string) : result Row :=
  rbind (column sector (rs_ratio rot)) (fun ratio =>
  rbind (iloc_neg 1 ratio) (fun r =>
  rbind (column sector (rs_momentum rot)) (fun momentum =>
  rbind (iloc_neg 1 momentum) (fun m =>
    let q := get_quadrant r m in
    rbind
      (if String.eqb rrg_timeframe "Weekly" && in_list q ["Leading"; "Improving"]
       then
         match lookup sector daily_prices with
         | Some df => fst (daily_entry_signal df)
         | None => Raise (KeyError sector)
         end
       else if String.eqb rrg_timeframe "Weekly" then Ok "—"
       else Ok "N/A")
      (fun daily_signal =>
         Ok (mkRow sector (round2 r) (round2 m) q daily_signal)))))).

Fixpoint latest_data (names : list string) : result (list Row) :=
  match names with
  | [] => Ok []
  | sector :: names' =>
      rbind (latest_row sector) (fun row =>
      rbind (latest_data names') (fun rows => Ok (row :: rows)))
  end.

End Ranking.

Definition ranking_df (latest : list Row) : list Row := sort_values latest.

Definition quadrant_counts (ranking : list Row) : list (string * nat) :=
  reindex quadrant_labels 0 (value_counts (map Quadrant ranking)).

(** The tails of the plot loop, lines 322-324. *)
Fixpoint tails (tail_length : nat) (rot : Rotation) (names : list string)
  : result (list (string * (Series * Series))) :=
  match names with
  | [] => Ok []
  | sector :: names' =>
      rbind (column sector (rs_ratio rot)) (fun x =>
      rbind (column sector (rs_momentum rot)) (fun y =>
      rbind (tails tail_length rot names') (fun rest =>
        Ok ((sector, (tail_slice tail_length x, tail_slice tail_length y)) :: rest))))
  end.

(** ** The run *)

(** The data provider and the resampling of pandas are taken as given
    functions.  The script reads the name [period] on line 138, above the
    sidebar that binds it (line 180), and on line 214 a name [benchmark]
    that it binds nowhere.  [namespace] holds the names that are bound
    when the first line runs, besides those the script binds itself: it
    is empty when Streamlit runs the script, and reading a name that is
    not bound raises [NameError].  A halt keeps the first sentence of its
    message. *)
Section Script.

(** [yf.download(ticker, period=...)]. *)
Variable yf_download : string -> string -> DataFrame.
(** [df.resample(rule).last()]. *)
Variable resample_last : string -> DataFrame -> DataFrame.
(** Sidebar selections, lines 174-190. *)
Variable rrg_timeframe period mode : string.
(** The names bound before the first line. *)
Variable namespace : list (string * string).

(** Reading a name that the script has not bound so far. *)
Definition read_name (name : string) : outcome string :=
  match lookup name namespace with
  | Some v => Done v
  | None => Failed (NameError name)
  end.

(** Lines 137-143: the first candidate whose download is usable.  Every
    turn of the loop reads [period], which the sidebar has not bound yet. *)
Fixpoint benchmark_with_fallbacks (cands : list (string * string))
  : outcome (option (string * string * DataFrame)) :=
  match cands with
  | [] => Done None
  | (name, symbol) :: cands' =>
      match read_name "period" with
      | Done p =>
          let df := yf_download symbol p in
          if negb (frame_empty df) && has_column "Close" df
          then Done (Some (name, symbol, df))
          else benchmark_with_fallbacks cands'
      | Stopped m => Stopped m
      | Failed e => Failed e
      end
  end.

Definition tail_length : nat :=
  if String.eqb mode "Swing" then 5%nat else 10%nat.

(** Lines 223-229: one turn of the sector download loop. *)
Definition add_sector (prices : DataFrame) (s : string * string) : DataFrame :=
  let df := yf_download (snd s) period in
  if frame_empty df || negb (has_column "Close" df) then prices
  else
    match frame_col "Close" df with
    | inr close => setitem prices (fst s) close
    | inl _ => prices
    end.

(** Lines 237-242. *)
Definition apply_timeframe (prices : DataFrame) : DataFrame :=
  dropna
    (if String.eqb rrg_timeframe "Weekly" then resample_last "W-FRI" prices
     else if String.eqb rrg_timeframe "Monthly" then resample_last "M" prices
     else prices).

(** Lines 254-258. *)
Definition daily_prices : list (string * DataFrame) :=
  map (fun s => (fst s, dropna (yf_download (snd s) "6mo"))) sectors.

(** Lines 211-301 and the tails of lines 322-324, once the mandatory
    benchmark column is in place. *)
Definition engine (bench_close : ISeries) : outcome Outputs :=
  let prices := setitem empty_frame "Benchmark" bench_close in
  let prices := fold_left add_sector sectors prices in
  let prices := dropna prices in
  let prices := apply_timeframe prices in
  obind (of_result (rrg_calculations (keys sectors) prices)) (fun rot =>
  obind (of_result (latest_data rrg_timeframe daily_prices rot (keys sectors)))
    (fun latest =>
  let ranking := ranking_df latest in
  let counts := quadrant_counts ranking in
  obind (of_result (tails tail_length rot (keys sectors))) (fun tl =>
  Done (mkOutputs prices (rs_ratio rot) (rs_momentum rot) ranking counts tl)))).

Definition script : outcome Outputs :=
  obind (benchmark_with_fallbacks benchmark_candidates) (fun benchmark_df =>
  match benchmark_df with
  | None =>
      Stopped "Benchmark data could not be loaded from Yahoo Finance."
  | Some _ =>
      obind (read_name "benchmark") (fun benchmark =>
      let bench_df := yf_download benchmark period in
      if frame_empty bench_df || negb (has_column "Close" bench_df)
      then Stopped "Benchmark data (NIFTY 50) could not be loaded. Please refresh the app."
      else obind (of_result (frame_col "Close" bench_df)) engine)
  end).

End Script.
(** ** The formulas of the specification, in its own words *)

Module Spec.

(** The last [n] entries of a series. *)
Definition lastn (n : nat) (s : Series) : Series := skipn (length s - n) s.

(** The arithmetic mean of a series. *)
Definition mean (s : Series) : value := fdiv (fsum s) (of_nat (length s)).

(** The day-to-day changes of a close series. *)
Definition changes (close : Series) : Series := zipwith fsub (tl close) close.

Definition vmax (a b : value) : value := if fltb a b then b else a.

Definition gain (d : value) : value := vmax d (Fin 0).
Definition loss (d : value) : value := vmax (fneg d) (Fin 0).

(** The [n]-period simple moving average at the latest observation. *)
Definition sma (n : nat) (close : Series) : value := mean (lastn n close).

(** The [n]-period RSI at the latest observation:
    [100 - 100 / (1 + RS)], [RS] the mean gain over the mean loss of the
    last [n] changes. *)
Definition rsi (n : nat) (close : Series) : value :=
  let d := lastn n (changes close) in
  let RS := fdiv (mean (map gain d)) (mean (map loss d)) in
  fsub (Fin 100) (fdiv (Fin 100) (fadd (Fin 1) RS)).

End Spec.

(** The series that [daily_entry_signal] builds on the way (lines 38-46). *)
Definition gain_series (close : Series) : Series :=
  map (clip_lower (Fin 0)) (diff close).

Definition loss_series (close : Series) : Series :=
  map fneg (map (clip_upper (Fin 0)) (diff close)).

Definition rs_at (i : nat) (close : Series) : value :=
  fdiv (window_mean 14 (window 14 i (gain_series close)))
       (window_mean 14 (window 14 i (loss_series close))).

(** Shapes of real values and of series used in the statements below. *)
Definition is_zero (v : value) : bool :=
  match v with Fin q => Qeq_bool q 0 | _ => false end.

Definition is_pos (v : value) : bool :=
  match v with Fin _ => fltb (Fin 0) v | _ => false end.

(** Each entry strictly below the next one. *)
Fixpoint increasing (s : Series) : bool :=
  match s with
  | x :: t => match t with
              | y :: _ => fltb x y && increasing t
              | [] => true
              end
  | [] => true
  end.

(** Concrete daily series used as examples. *)
Definition yes_series : Series :=
  Qs [10; 10; 10; 10; 10; 10; 9; 10; 11; 12; 13; 14; 15; 16; 17; 18; 19; 20;
      21; 22; 23]%Z.

Definition rising (n : nat) : Series := Qs (map Z.of_nat (seq 1 n)).

(** A download that returns [n] days at one constant price for every
    ticker, and the identity in place of a resampling. *)
Definition flat_frame (n : nat) (price : Q) : DataFrame :=
  mkFrame (map Z.of_nat (seq 0 n)) [("Close", repeat (Fin price) n)].

Definition flat_download (n : nat) (ticker period : string) : DataFrame :=
  flat_frame n 50.

Definition no_resample (rule : string) (df : DataFrame) : DataFrame := df.

(** The ranking order of the specification: the quadrant priority
    Leading < Improving < Weakening < Lagging first; within a quadrant the
    real RS-Ratio values descending and the missing ones last. *)
Fixpoint index_of (q : string) (l : list string) : nat :=
  match l with
  | [] => 0%nat
  | x :: l' => if String.eqb q x then 0%nat else S (index_of q l')
  end.

Definition priority (r : Row) : nat := index_of (Quadrant r) quadrant_labels.

(** Descending order of the values of a column: plus infinity first,
    the real values from large to small, minus infinity, and the missing
    values last. *)
Definition not_below (a b : value) : Prop :=
  match a, b with
  | _, NaN => True
  | NaN, _ => False
  | PInf, _ => True
  | _, NInf => True
  | Fin x, Fin y => y <= x
  | _, _ => False
  end.

Definition ranked_before (a b : Row) : Prop :=
  (priority a < priority b)%nat
  \/ (priority a = priority b /\ not_below (RS_Ratio a) (RS_Ratio b)).

Definition labelled (r : Row) : Prop := In (Quadrant r) quadrant_labels.

(** The key order of the sort, as a relation. *)
Definition leb_true (a b : Row) : Prop := row_leb a b = true.

(** A rotation with one series per sector, for examples. *)
Definition sample_rotation : Rotation :=
  let ratios := [("Bank", [Fin 99; Fin 101.5]); ("IT", [Fin 99; Fin 98]);
                 ("FMCG", [Fin 99; Fin 103.25]); ("Auto", [Fin 99; Fin 97])] in
  let moms := [("Bank", [Fin 99; Fin 100]); ("IT", [Fin 99; Fin 102]);
               ("FMCG", [Fin 99; Fin 100.5]); ("Auto", [Fin 99; Fin 99])] in
  mkRotation ratios ratios moms.

Definition sample_latest : list Row :=
  match latest_data "Daily" [] sample_rotation ["Bank"; "IT"; "FMCG"; "Auto"] with
  | inr rows => rows
  | inl _ => []
  end.

(** The count that a counts table holds for a label, 0 when absent. *)
Definition count_of (m : list (string * nat)) (k : string) : nat :=
  match lookup k m with Some n => n | None => 0%nat end.

(** A download in which the IT sector index comes back empty and every
    other ticker has 30 days of prices; a download with nothing at all. *)
Definition it_missing_download (ticker period : string) : DataFrame :=
  if String.eqb ticker "^CNXIT" then empty_frame else flat_frame 30 50.

Definition no_download (ticker period : string) : DataFrame := empty_frame.

(** A download the script accepts: not empty and with a "Close" column
    (the tests of lines 139, 216 and 226). *)
Definition usable (df : DataFrame) : bool :=
  negb (frame_empty df) && has_column "Close" df.

(** Every column of a frame is as long as its index. *)
Definition well_formed (df : DataFrame) : Prop :=
  Forall (fun c => length (snd c) = length (index df)) (columns df).

Definition column_names (df : DataFrame) : list string := map fst (columns df).

(** A small table with gaps, for examples. *)
Definition gappy_frame : DataFrame :=
  mkFrame [1; 2; 3; 4]%Z
          [("Benchmark", [Fin 10; Fin 11; NaN; Fin 13]);
           ("Bank", [Fin 5; NaN; Fin 7; Fin 8])].

(** A table and a shorter series to align on it, for examples. *)
Definition bench_table : DataFrame :=
  mkFrame [1; 2; 3; 4]%Z [("Benchmark", [Fin 10; Fin 11; Fin 12; Fin 13])].

Definition sparse_close : ISeries := ([2; 4; 5]%Z, [Fin 7; Fin 8; Fin 9]).

(** The price table of lines 211-242 for a benchmark close series. *)
Definition price_table (yf_download : string -> string -> DataFrame)
    (resample_last : string -> DataFrame -> DataFrame)
    (rrg_timeframe period : string) (bench_close : ISeries) : DataFrame :=
  apply_timeframe resample_last rrg_timeframe
    (dropna (fold_left (add_sector yf_download period) sectors
               (setitem empty_frame "Benchmark" bench_close))).

(** Daily series for examples: 21 closes of which one is missing, and 25
    closes that fall by one each day. *)
Definition gap_series : Series :=
  (Qs [10; 11; 12; 13; 14]%Z ++ [NaN] ++ rising 15)%list.

Definition falling : Series := Qs (map (fun i => 100 - Z.of_nat i)%Z (seq 0 25)).

(** A rotation whose only sector has no periods at all. *)
Definition empty_rotation : Rotation :=
  mkRotation [("Bank", [])] [("Bank", [])] [("Bank", [])].

(** The close series of [n] days at one constant price, and the outputs
    of the engine on 2 days of constant prices. *)
Definition flat_close (n : nat) : ISeries :=
  (map Z.of_nat (seq 0 n), repeat (Fin 50) n).

Definition flat_outputs : Outputs :=
  match engine (flat_download 2) no_resample "Daily" "2y" "Swing" (flat_close 2) with
  | Done o => o
  | _ => mkOutputs empty_frame [] [] [] [] []
  end.

(** The names a host would have to bind for the run to pass lines 138
    and 214. *)
Definition bound_names : list (string * string) :=
  [("period", "2y"); ("benchmark", "NIFTYBEES.NS")].

(** ** Row styles, lines 59-64 and 353-358 *)

Definition quadrant_colors : list (string * string) :=
  [("Leading", "#E6F4EA"); ("Weakening", "#FFF4E5");
   ("Lagging", "#FDECEA"); ("Improving", "#E8F0FE")].

(** [d.get(key, default)]. *)
Definition dict_get (d : list (string * string)) (key default : string) : string :=
  match lookup key d with Some v => v | None => default end.

(** The number of columns of [ranking_df], which is [len(row)]. *)
Definition ranking_columns : nat := 5.

(** [highlight_row]: one style per cell of the row. *)
Definition highlight_row (row : Row) : list string :=
  let bg := dict_get quadrant_colors (Quadrant row) "#FFFFFF" in
  let style := "background-color: " ++ bg ++ "; color: black" in
  let style :=
    if String.eqb (Daily_Entry row) "YES"
    then style ++ "; font-weight: bold; border-left: 6px solid #2E7D32"
    else style in
  repeat style ranking_columns.

(** ** The engine over binary64

    The same functions once more, over Rocq's primitive binary64 floats,
    for the properties that rounding decides: every operation below is
    the IEEE operation NumPy performs, signed zeros and all.  The rolling
    mean of pandas is a parameter of the engine; [roll_mean] is the
    running sum pandas computes it with. *)
Module Float64.
Import PrimFloat.
Local Open Scope float_scope.

Definition Series : Type := list float.

Record DataFrame : Type := mkFrame {
  index : list Z;
  columns : list (string * Series)
}.

(** [s.diff()]. *)
Fixpoint diff_from (prev : float) (s : Series) : Series :=
  match s with
  | [] => []
  | x :: t => (x - prev) :: diff_from x t
  end.

Definition diff (s : Series) : Series :=
  match s with
  | [] => []
  | x :: t => nan :: diff_from x t
  end.

(** [s.clip(lower=lo)], [s.clip(upper=hi)]: an entry is kept when it is
    missing or on the right side of the bound. *)
Definition clip_lower (lo v : float) : float :=
  if is_nan v || (lo <=? v) then v else lo.

Definition clip_upper (hi v : float) : float :=
  if is_nan v || (v <=? hi) then v else hi.

(** [s.iloc[-k]] for [k >= 1]. *)
Definition iloc_neg (k : nat) (s : Series) : result float :=
  if (k <=? length s)%nat then
    match nth_error s (length s - k) with
    | Some v => Ok v
    | None => Raise IndexError
    end
  else Raise IndexError.

(** An observation of a rolling window: neither missing nor infinite. *)
Definition observation (v : float) : bool :=
  negb (is_nan v) && negb (is_infinity v).

(** What the engine relies on from [s.rolling(w).mean()] with the default
    [min_periods = w]: one value per position, and a value only where the
    [w] entries ending at the position are all observations. *)
Definition rolling_contract (rolling_mean : nat -> Series -> Series) : Prop :=
  (forall w s, length (rolling_mean w s) = length s)
  /\ (forall w s i,
        is_nan (nth i (rolling_mean w s) nan) = false ->
        (w <= S i)%nat
        /\ forall k, (S i - w <= k <= i)%nat -> observation (nth k s nan) = true).

(** *** The running mean of pandas ([roll_mean] of its window
    aggregations): infinities become missing values, then a
    Kahan-compensated sum is kept up by removing the entry that leaves
    the window and adding the one that enters it. *)

Definition prep (v : float) : float := if is_infinity v then nan else v.

Definition float_of_nat (n : nat) : float :=
  of_uint63 (Uint63.of_Z (Z.of_nat n)).

Record state : Type := mkState {
  nobs : nat;
  sum_x : float;
  neg_ct : Z;
  compensation_add : float;
  compensation_remove : float;
  num_consecutive_same_value : nat;
  prev_value : float
}.

Definition setup (first : float) : state := mkState 0 0 0 0 0 0 first.

Definition add_mean (val : float) (st : state) : state :=
  if val =? val then
    let y := val - compensation_add st in
    let t := sum_x st + y in
    mkState (S (nobs st)) t
            (if get_sign val then (neg_ct st + 1)%Z else neg_ct st)
            (t - sum_x st - y) (compensation_remove st)
            (if val =? prev_value st
             then S (num_consecutive_same_value st) else 1%nat)
            val
  else st.

Definition remove_mean (val : float) (st : state) : state :=
  if val =? val then
    let y := - val - compensation_remove st in
    let t := sum_x st + y in
    mkState (nobs st - 1) t
            (if get_sign val then (neg_ct st - 1)%Z else neg_ct st)
            (compensation_add st) (t - sum_x st - y)
            (num_consecutive_same_value st) (prev_value st)
  else st.

Definition calc_mean (minp : nat) (st : state) : float :=
  if ((minp <=? nobs st) && (0 <? nobs st))%nat then
    let result := sum_x st / float_of_nat (nobs st) in
    if (nobs st <=? num_consecutive_same_value st)%nat then prev_value st
    else if (neg_ct st =? 0)%Z && (result <? 0) then 0
    else if (neg_ct st =? Z.of_nat (nobs st))%Z && (0 <? result) then 0
    else result
  else nan.

Fixpoint add_range (vals : Series) (j n : nat) (st : state) : state :=
  match n with
  | O => st
  | S n' => add_range vals (S j) n' (add_mean (nth j vals nan) st)
  end.

Fixpoint remove_range (vals : Series) (j n : nat) (st : state) : state :=
  match n with
  | O => st
  | S n' => remove_range vals (S j) n' (remove_mean (nth j vals nan) st)
  end.

(** The window of position [i] is [window_start w i .. i]. *)
Definition window_start (w i : nat) : nat := S i - w.

Fixpoint roll_loop (w : nat) (vals : Series) (todo : list nat) (st : state)
  : Series :=
  match todo with
  | [] => []
  | i :: todo' =>
      let s := window_start w i in
      let st' :=
        if ((i =? 0) || (i <=? s))%nat
        then add_range vals s (S i - s) (setup (nth s vals nan))
        else add_range vals i 1
               (remove_range vals (window_start w (i - 1))
                  (s - window_start w (i - 1)) st) in
      calc_mean w st' :: roll_loop w vals todo' st'
  end.

Definition roll_mean (w : nat) (s : Series) : Series :=
  roll_loop w (map prep s) (seq 0 (length s)) (setup 0).

(** The entries the running sum takes in, and their number among [n]
    entries from position [j] on. *)
Definition counted (v : float) : bool := v =? v.

Fixpoint count (vals : Series) (j n : nat) : nat :=
  match n with
  | O => 0
  | S n' => (if counted (nth j vals nan) then 1 else 0) + count vals (S j) n'
  end.

(** The state at position [i] has taken in the entries of the window of
    [i] and no others. *)
Definition window_counted (w : nat) (vals : Series) (i : nat) (st : state)
  : Prop :=
  nobs st = count vals (window_start w i) (S i - window_start w i).

(** *** The helper functions *)

(** [get_quadrant], lines 19-27. *)
Definition get_quadrant (rs_ratio rs_momentum : float) : string :=
  if (100 <=? rs_ratio) && (100 <=? rs_momentum) then "Leading"
  else if (100 <=? rs_ratio) && (rs_momentum <? 100) then "Weakening"
  else if (rs_ratio <? 100) && (rs_momentum <? 100) then "Lagging"
  else "Improving".

Definition Body (A : Type) : Type := DataFrame -> result A * DataFrame.

Definition ret {A} (a : A) : Body A := fun df => (Ok a, df).

Definition bind {A B} (m : Body A) (k : A -> Body B) : Body B :=
  fun df =>
    match m df with
    | (inl e, df') => (inl e, df')
    | (inr a, df') => k a df'
    end.

Definition lift {A} (r : result A) : Body A := fun df => (r, df).

Definition getitem_copy (key : string) : Body Series :=
  fun df =>
    match lookup key (columns df) with
    | Some s => (Ok s, df)
    | None => (Raise (KeyError key), df)
    end.

Declare Scope body64_scope.
Delimit Scope body64_scope with body64.
Notation "x <- m ;; k" := (bind m (fun x => k))
  (at level 61, m at next level, right associativity) : body64_scope.

(** [df[keys]] for a list of labels. *)
Fixpoint select (keys : list string) (cols : list (string * Series))
  : result (list (string * Series)) :=
  match keys with
  | [] => Ok []
  | k :: keys' =>
      match lookup k cols with
      | None => Raise (KeyError k)
      | Some c => rbind (select keys' cols) (fun r => Ok ((k, c) :: r))
      end
  end.

Definition map_columns (f : Series -> Series) (cols : list (string * Series))
  : list (string * Series) :=
  map (fun c => (fst c, f (snd c))) cols.

Definition column (name : string) (t : list (string * Series)) : result Series :=
  match lookup name t with
  | Some s => Ok s
  | None => Raise (KeyError name)
  end.

Record Rotation : Type := mkRotation {
  rs : list (string * Series);
  rs_ratio : list (string * Series);
  rs_momentum : list (string * Series)
}.

(** The RSI of a relative-strength value, line 46. *)
Definition rsi_of_rs (rs : float) : float := 100 - 100 / (1 + rs).

Section Engine.

Variable rolling_mean : nat -> Series -> Series.

(** The series of lines 38-46. *)
Definition gain_series (close : Series) : Series :=
  map (clip_lower 0) (diff close).

Definition loss_series (close : Series) : Series :=
  map opp (map (clip_upper 0) (diff close)).

Definition rsi_series (close : Series) : Series :=
  map rsi_of_rs
      (zipwith div (rolling_mean 14 (gain_series close))
                   (rolling_mean 14 (loss_series close))).

(** [daily_entry_signal], lines 30-53. *)
Definition daily_entry_signal : Body string :=
  (close <- getitem_copy "Close" ;;
   if (length close <? 21)%nat then ret "NO"
   else
     let sma20 := rolling_mean 20 close in
     let delta := diff close in
     let gain := map (clip_lower 0) delta in
     let loss := map opp (map (clip_upper 0) delta) in
     let avg_gain := rolling_mean 14 gain in
     let avg_loss := rolling_mean 14 loss in
     let rs := zipwith div avg_gain avg_loss in
     let rsi := map rsi_of_rs rs in
     price_now <- lift (iloc_neg 1 close) ;;
     sma_now <- lift (iloc_neg 1 sma20) ;;
     rsi_now <- lift (iloc_neg 1 rsi) ;;
     rsi_prev <- lift (iloc_neg 2 rsi) ;;
     ret (if (sma_now <? price_now) && (55 <? rsi_now) && (rsi_prev <? rsi_now)
          then "YES" else "NO"))%body64.

(** RRG calculations, lines 247-249. *)
Definition ratio_to_rolling_mean (s : Series) : Series :=
  zipwith div (map (mul 100) s) (rolling_mean 14 s).

Definition rrg_calculations (names : list string) (prices : DataFrame)
  : result Rotation :=
  rbind (select names (columns prices)) (fun picked =>
  rbind (column "Benchmark" (columns prices)) (fun bench =>
    let rs := map_columns (fun c => zipwith div c bench) picked in
    let rs_ratio := map_columns ratio_to_rolling_mean rs in
    let rs_momentum := map_columns ratio_to_rolling_mean rs_ratio in
    Ok (mkRotation rs rs_ratio rs_momentum))).

End Engine.

(** The classification of one turn of the ranking loop, lines 266-268. *)
Definition latest_quadrant (rot : Rotation) (sector : string) : result string :=
  rbind (column sector (rs_ratio rot)) (fun ratio =>
  rbind (iloc_neg 1 ratio) (fun r =>
  rbind (column sector (rs_momentum rot)) (fun momentum =>
  rbind (iloc_neg 1 momentum) (fun m =>
    Ok (get_quadrant r m))))).

(** Examples. *)
Definition daily_frame (close : Series) : DataFrame :=
  mkFrame (map Z.of_nat (seq 0 (length close))) [("Close", close)].

(** 21 closes on which the third test holds by rounding alone: in exact
    arithmetic both RSI values are 70.  The decimal literals stand for
    the nearest binary64 values, as they do in Python. *)
#[local] Set Warnings "-inexact-float".
Definition tie_series : Series :=
  [30.5; 30.2; 30.9; 30.6; 30.3; 30.0; 29.7; 29.4; 30.1; 30.8; 31.5;
   31.2; 31.9; 31.6; 31.3; 32.0; 32.7; 33.4; 33.1; 32.8; 32.5].

Definition flat_prices (n : nat) : DataFrame :=
  mkFrame (map Z.of_nat (seq 0 n))
          (("Benchmark", repeat 40 n)
             :: map (fun k => (k, repeat 50 n)) (keys sectors)).

End Float64.

(** * Properties *)

(** ** Comparisons on real values *)

Lemma fgeb_real (x y : Q) : fgeb (Fin x) (Fin y) = true <-> y <= x.
Proof.
  unfold fgeb, fleb. rewrite Qle_alt.
  destruct (y ?= x); split; intros; congruence.
Qed.

Lemma fltb_real (x y : Q) : fltb (Fin x) (Fin y) = true <-> x < y.
Proof.
  unfold fltb. rewrite Qlt_alt.
  destruct (x ?= y); split; intros; congruence.
Qed.

Lemma fgeb_fltb_real (x y : Q) : fgeb (Fin x) (Fin y) = negb (fltb (Fin x) (Fin y)).
Proof.
  unfold fgeb, fleb, fltb. rewrite <- (Qcompare_antisym x y).
  destruct (x ?= y); reflexivity.
Qed.

Lemma get_quadrant_label (r m : value) : In (get_quadrant r m) quadrant_labels.
Proof.
  unfold get_quadrant, quadrant_labels.
  repeat match goal with |- context [if ?b then _ else _] => destruct b end;
    simpl; tauto.
Qed.

(** C1. On real inputs [get_quadrant] decides by the two tests [>= 100]:
    Leading, Weakening, Lagging and Improving are returned exactly in
    their quarter planes, the value 100 counting as [>= 100] on either
    axis; the four boundary cases come out as listed, and the label is
    always one of the four. *)
Theorem get_quadrant_real (r m : Q) :
  (100 <= r -> 100 <= m -> get_quadrant (Fin r) (Fin m) = "Leading") /\
  (100 <= r -> m < 100 -> get_quadrant (Fin r) (Fin m) = "Weakening") /\
  (r < 100 -> m < 100 -> get_quadrant (Fin r) (Fin m) = "Lagging") /\
  (r < 100 -> 100 <= m -> get_quadrant (Fin r) (Fin m) = "Improving") /\
  get_quadrant (Fin 100) (Fin 100) = "Leading" /\
  get_quadrant (Fin 100) (Fin 99.9) = "Weakening" /\
  get_quadrant (Fin 99.9) (Fin 100) = "Improving" /\
  get_quadrant (Fin 99.9) (Fin 99.9) = "Lagging" /\
  In (get_quadrant (Fin r) (Fin m)) quadrant_labels.
Proof.
  assert (Hlt : forall x, x < 100 -> fgeb (Fin x) (Fin 100) = false
                                   /\ fltb (Fin x) (Fin 100) = true).
  { intros x Hx. rewrite fgeb_fltb_real.
    apply fltb_real in Hx. rewrite Hx. auto. }
  assert (Hge : forall x, 100 <= x -> fgeb (Fin x) (Fin 100) = true
                                    /\ fltb (Fin x) (Fin 100) = false).
  { intros x Hx. apply fgeb_real in Hx. split; [exact Hx|].
    rewrite fgeb_fltb_real in Hx. now destruct (fltb (Fin x) (Fin 100)). }
  unfold get_quadrant.
  repeat split; try reflexivity.
  - intros Hr Hm. destruct (Hge _ Hr) as [-> _], (Hge _ Hm) as [-> _]. reflexivity.
  - intros Hr Hm. destruct (Hge _ Hr) as [-> _], (Hlt _ Hm) as [-> ->]. reflexivity.
  - intros Hr Hm. destruct (Hlt _ Hr) as [-> ->], (Hlt _ Hm) as [-> ->]. reflexivity.
  - intros Hr Hm. destruct (Hlt _ Hr) as [-> ->], (Hge _ Hm) as [-> ->]. reflexivity.
  - apply get_quadrant_label.
Qed.

Lemma get_quadrant_real_witness :
  get_quadrant (Fin 100) (Fin 99.9) = "Weakening"
  /\ get_quadrant (Fin 99.5) (Fin 101) = "Improving".
Proof.
  split.
  - destruct (get_quadrant_real 100 99.9) as (_ & H & _).
    apply H; unfold Qle, Qlt; simpl; lia.
  - destruct (get_quadrant_real 99.5 101) as (_ & _ & _ & H & _).
    apply H; unfold Qle, Qlt; simpl; lia.
Defined.

(** ** Lists, windows and rolling means *)

Lemma length_zipwith {A B C} (f : A -> B -> C) l m :
  length (zipwith f l m) = Nat.min (length l) (length m).
Proof.
  revert m; induction l as [|a l IH]; intros [|b m]; simpl; auto.
Qed.

Lemma nth_zipwith {A B C} (f : A -> B -> C) l m i da db dc :
  (i < length l)%nat -> (i < length m)%nat ->
  nth i (zipwith f l m) dc = f (nth i l da) (nth i m db).
Proof.
  revert m i; induction l as [|a l IH]; intros [|b m] [|i]; simpl; intros;
    try lia; auto.
  apply IH; lia.
Qed.

Lemma length_rolling_mean w s : length (rolling_mean w s) = length s.
Proof. unfold rolling_mean. now rewrite length_map, length_seq. Qed.

Lemma nth_rolling_mean w s i :
  (i < length s)%nat ->
  nth i (rolling_mean w s) NaN = window_mean w (window w i s).
Proof.
  intros Hi. unfold rolling_mean.
  rewrite (nth_indep _ NaN (window_mean w (window w 0 s)))
    by now rewrite length_map, length_seq.
  rewrite (map_nth (fun i => window_mean w (window w i s))).
  now rewrite seq_nth.
Qed.

Lemma length_diff_from x s : length (diff_from x s) = length s.
Proof. revert x; induction s; simpl; auto. Qed.

Lemma length_diff s : length (diff s) = length s.
Proof. destruct s; simpl; auto using length_diff_from. Qed.

Lemma iloc_neg_nth k s :
  (1 <= k <= length s)%nat -> iloc_neg k s = Ok (nth (length s - k) s NaN).
Proof.
  intros Hk. unfold iloc_neg.
  destruct (Nat.leb_spec k (length s)); [|lia].
  destruct (nth_error s (length s - k)) eqn:E.
  - now rewrite (nth_error_nth _ _ _ E).
  - apply nth_error_None in E. lia.
Qed.

Lemma length_window w i s :
  (i < length s)%nat -> length (window w i s) = Nat.min w (S i).
Proof.
  intros Hi. unfold window. rewrite length_skipn, length_firstn. lia.
Qed.

Lemma filter_all {A} (p : A -> bool) l : forallb p l = true -> filter p l = l.
Proof.
  induction l as [|a l IH]; simpl; auto.
  intros H. apply andb_prop in H as [-> H]. now rewrite IH.
Qed.

Lemma filter_length_lt {A} (p : A -> bool) l :
  forallb p l = false -> (length (filter p l) < length l)%nat.
Proof.
  induction l as [|a l IH]; simpl; [discriminate|].
  destruct (p a); simpl; intros H.
  - apply IH in H. lia.
  - pose proof (filter_length_le p l). lia.
Qed.

(** A full window of finite entries has the arithmetic mean of its
    entries; a window with a missing or infinite entry has none. *)
Lemma window_mean_full w win :
  length win = w -> forallb is_finite win = true ->
  window_mean w win = Spec.mean win.
Proof.
  intros Hl Hf. unfold window_mean, Spec.mean.
  rewrite (filter_all _ _ Hf), Hl, Nat.leb_refl. reflexivity.
Qed.

Lemma window_mean_gap w win :
  (length win <= w)%nat -> forallb is_finite win = false -> window_mean w win = NaN.
Proof.
  intros Hl Hf. unfold window_mean.
  pose proof (filter_length_lt _ _ Hf).
  destruct (Nat.leb_spec w (length (filter is_finite win))); [lia|reflexivity].
Qed.

Lemma window_last w s :
  s <> [] -> window w (length s - 1) s = Spec.lastn w s.
Proof.
  intros Hs. unfold window, Spec.lastn.
  destruct s as [|x t]; [congruence|]. simpl length.
  replace (S (S (length t) - 1)) with (S (length t)) by lia.
  change (S (length t)) with (length (x :: t)).
  now rewrite firstn_all.
Qed.

Lemma firstn_removelast {A} (l : list A) :
  firstn (length l - 1) l = removelast l.
Proof.
  induction l as [|a l IH]; simpl; auto.
  destruct l as [|b l]; simpl in *; auto.
  rewrite Nat.sub_0_r in *. now rewrite IH.
Qed.

Lemma length_removelast {A} (l : list A) : length (removelast l) = (length l - 1)%nat.
Proof.
  induction l as [|a l IH]; simpl; auto.
  destruct l as [|b l]; simpl in *; auto. rewrite IH. lia.
Qed.

Lemma window_prev w s :
  (2 <= length s)%nat -> window w (length s - 2) s = Spec.lastn w (removelast s).
Proof.
  intros Hs. unfold window, Spec.lastn.
  replace (S (length s - 2)) with (length s - 1)%nat by lia.
  rewrite firstn_removelast, length_removelast. reflexivity.
Qed.

(** ** The body of [daily_entry_signal] *)

Lemma nth_map_NaN (f : value -> value) l i :
  (i < length l)%nat -> nth i (map f l) NaN = f (nth i l NaN).
Proof.
  intros Hi. rewrite (nth_indep _ NaN (f NaN)) by now rewrite length_map.
  apply map_nth.
Qed.

Lemma length_gain_series close : length (gain_series close) = length close.
Proof. unfold gain_series. now rewrite length_map, length_diff. Qed.

Lemma length_loss_series close : length (loss_series close) = length close.
Proof. unfold loss_series. now rewrite !length_map, length_diff. Qed.

Lemma nth_rsi i close :
  (i < length close)%nat ->
  nth i (map rsi_of_rs
           (zipwith fdiv (rolling_mean 14 (gain_series close))
                         (rolling_mean 14 (loss_series close)))) NaN
  = rsi_of_rs (rs_at i close).
Proof.
  intros Hi.
  pose proof (length_gain_series close) as Hg.
  pose proof (length_loss_series close) as Hl.
  rewrite nth_map_NaN
    by (rewrite length_zipwith, !length_rolling_mean, Hg, Hl; lia).
  rewrite (nth_zipwith _ _ _ _ NaN NaN)
    by (rewrite length_rolling_mean; lia).
  rewrite !nth_rolling_mean by lia. reflexivity.
Qed.

(** With 21 observations or more the body raises nothing, hands the frame
    back as it was, and answers by the three tests on the last entries. *)
Lemma daily_entry_signal_run df close :
  lookup "Close" (columns df) = Some close ->
  (21 <= length close)%nat ->
  daily_entry_signal df =
    (Ok (if fgtb (nth (length close - 1) close NaN)
                 (window_mean 20 (window 20 (length close - 1) close))
            && fgtb (rsi_of_rs (rs_at (length close - 1) close)) (Fin 55)
            && fgtb (rsi_of_rs (rs_at (length close - 1) close))
                    (rsi_of_rs (rs_at (length close - 2) close))
         then "YES" else "NO"), df).
Proof.
  intros Hc Hn. unfold daily_entry_signal, bind, getitem_copy.
  rewrite Hc. unfold Ok at 1. cbv beta iota.
  destruct (Nat.ltb_spec (length close) 21); [lia|].
  pose proof (length_gain_series close) as Hg.
  pose proof (length_loss_series close) as Hl.
  cbv zeta. fold (gain_series close). fold (loss_series close).
  set (rsi := map rsi_of_rs _).
  assert (Hr : length rsi = length close).
  { unfold rsi. rewrite length_map, length_zipwith, !length_rolling_mean. lia. }
  unfold lift.
  rewrite (iloc_neg_nth 1 close) by lia.
  rewrite (iloc_neg_nth 1 (rolling_mean 20 close))
    by (rewrite length_rolling_mean; lia).
  rewrite (iloc_neg_nth 1 rsi), (iloc_neg_nth 2 rsi) by lia.
  unfold Ok, ret. rewrite Hr, length_rolling_mean.
  rewrite nth_rolling_mean by lia.
  unfold rsi. rewrite !nth_rsi by lia.
  reflexivity.
Qed.

(** ** Rolling means of real series against the formulas *)

Lemma diff_from_changes x t : diff_from x t = Spec.changes (x :: t).
Proof.
  revert x; induction t as [|y t IH]; intros x; simpl; auto.
  unfold Spec.changes in *. simpl. now rewrite IH.
Qed.

Lemma diff_changes close : close <> [] -> diff close = NaN :: Spec.changes close.
Proof.
  destruct close as [|x t]; [congruence|]. intros _. simpl.
  now rewrite diff_from_changes.
Qed.

Lemma length_changes close : length (Spec.changes close) = (length close - 1)%nat.
Proof.
  unfold Spec.changes. rewrite length_zipwith.
  destruct close; simpl; lia.
Qed.

Lemma fsub_finite a b :
  is_finite a = true -> is_finite b = true -> is_finite (fsub a b) = true.
Proof. destruct a, b; simpl; auto. Qed.

Lemma changes_finite close :
  forallb is_finite close = true -> forallb is_finite (Spec.changes close) = true.
Proof.
  unfold Spec.changes. induction close as [|x t IH]; simpl; auto.
  intros H. apply andb_prop in H as [Hx Ht].
  destruct t as [|y t]; simpl in *; auto.
  apply andb_prop in Ht as [Hy Ht'].
  rewrite fsub_finite by assumption. simpl. apply IH. now rewrite Hy, Ht'.
Qed.

Lemma changes_removelast close :
  Spec.changes (removelast close) = removelast (Spec.changes close).
Proof.
  unfold Spec.changes. induction close as [|x t IH]; simpl; auto.
  destruct t as [|y t]; simpl in *; auto.
  destruct t as [|z t]; simpl in *; auto.
  now rewrite <- IH.
Qed.

Lemma Qcompare_opp_0 x : (- x ?= 0) = (0 ?= x).
Proof.
  unfold Qcompare. destruct x as [n d]. simpl.
  rewrite !Z.mul_1_r. destruct n; reflexivity.
Qed.

Lemma clip_upper_loss d : fneg (clip_upper (Fin 0) d) = Spec.loss d.
Proof.
  unfold clip_upper, Spec.loss, Spec.vmax.
  destruct d as [x| | |]; try reflexivity.
  unfold fneg at 2. unfold fltb. rewrite Qcompare_opp_0.
  destruct (0 ?= x); reflexivity.
Qed.

Lemma gain_finite d : is_finite d = true -> is_finite (Spec.gain d) = true.
Proof.
  destruct d; try discriminate. intros _. unfold Spec.gain, Spec.vmax.
  destruct (fltb _ _); reflexivity.
Qed.

Lemma loss_finite d : is_finite d = true -> is_finite (Spec.loss d) = true.
Proof.
  destruct d; try discriminate. intros _. unfold Spec.loss, Spec.vmax.
  destruct (fltb _ _); reflexivity.
Qed.

Lemma gain_series_changes close :
  close <> [] -> gain_series close = NaN :: map Spec.gain (Spec.changes close).
Proof.
  intros H. unfold gain_series. rewrite (diff_changes _ H). reflexivity.
Qed.

Lemma loss_series_changes close :
  close <> [] -> loss_series close = NaN :: map Spec.loss (Spec.changes close).
Proof.
  intros H. unfold loss_series. rewrite (diff_changes _ H), map_map. simpl.
  f_equal. apply map_ext. exact clip_upper_loss.
Qed.

Lemma lastn_cons n a l :
  (n <= length l)%nat -> Spec.lastn n (a :: l) = Spec.lastn n l.
Proof.
  intros H. unfold Spec.lastn. simpl length.
  replace (S (length l) - n)%nat with (S (length l - n)) by lia. reflexivity.
Qed.

Lemma lastn_map (f : value -> value) n l :
  Spec.lastn n (map f l) = map f (Spec.lastn n l).
Proof. unfold Spec.lastn. now rewrite length_map, skipn_map. Qed.

Lemma length_lastn n l : (n <= length l)%nat -> length (Spec.lastn n l) = n.
Proof. intros H. unfold Spec.lastn. rewrite length_skipn. lia. Qed.

Lemma forallb_skipn {A} (p : A -> bool) k l :
  forallb p l = true -> forallb p (skipn k l) = true.
Proof.
  revert l; induction k as [|k IH]; intros [|a l]; simpl; auto.
  intros H. apply andb_prop in H as [_ H]. auto.
Qed.

Lemma forallb_map_finite (f : value -> value) l :
  (forall d, is_finite d = true -> is_finite (f d) = true) ->
  forallb is_finite l = true -> forallb is_finite (map f l) = true.
Proof.
  intros Hf. induction l as [|a l IH]; simpl; auto.
  intros H. apply andb_prop in H as [Ha Hl]. now rewrite Hf, IH.
Qed.

Lemma removelast_map {A B} (f : A -> B) l :
  removelast (map f l) = map f (removelast l).
Proof.
  induction l as [|a l IH]; simpl; auto.
  destruct l as [|b l]; simpl in *; auto. now rewrite IH.
Qed.

Lemma forallb_removelast {A} (p : A -> bool) l :
  forallb p l = true -> forallb p (removelast l) = true.
Proof.
  induction l as [|a l IH]; simpl; auto.
  intros H. apply andb_prop in H as [Ha Hl].
  destruct l as [|b l]; simpl in *; auto. rewrite Ha. simpl. auto.
Qed.

(** The mean over the window of a clipped change series that ends at the
    latest observation. *)
Lemma clipped_window_last (f : value -> value) close :
  (forall d, is_finite d = true -> is_finite (f d) = true) ->
  forallb is_finite close = true -> (15 <= length close)%nat ->
  window_mean 14 (window 14 (length close - 1) (NaN :: map f (Spec.changes close)))
  = Spec.mean (map f (Spec.lastn 14 (Spec.changes close))).
Proof.
  intros Hf Hfin Hn.
  pose proof (length_changes close) as Hc.
  replace (length close - 1)%nat
    with (length (NaN :: map f (Spec.changes close)) - 1)%nat
    by (simpl; rewrite length_map, Hc; lia).
  rewrite window_last by discriminate.
  rewrite lastn_cons by (rewrite length_map; lia).
  rewrite lastn_map.
  apply window_mean_full.
  - rewrite length_map, length_lastn; lia.
  - apply forallb_map_finite; auto.
    apply forallb_skipn, changes_finite, Hfin.
Qed.

(** The same one observation earlier. *)
Lemma clipped_window_prev (f : value -> value) close :
  (forall d, is_finite d = true -> is_finite (f d) = true) ->
  forallb is_finite close = true -> (16 <= length close)%nat ->
  window_mean 14 (window 14 (length close - 2) (NaN :: map f (Spec.changes close)))
  = Spec.mean (map f (Spec.lastn 14 (Spec.changes (removelast close)))).
Proof.
  intros Hf Hfin Hn.
  pose proof (length_changes close) as Hc.
  replace (length close - 2)%nat
    with (length (NaN :: map f (Spec.changes close)) - 2)%nat
    by (simpl; rewrite length_map, Hc; lia).
  rewrite window_prev by (simpl; rewrite length_map; lia).
  assert (Hne : map f (Spec.changes close) <> []).
  { intros E. apply (f_equal (@length _)) in E. rewrite length_map in E.
    simpl in E. lia. }
  change (removelast (NaN :: map f (Spec.changes close)))
    with (match map f (Spec.changes close) with
          | [] => []
          | _ :: _ => NaN :: removelast (map f (Spec.changes close))
          end).
  destruct (map f (Spec.changes close)) eqn:E; [congruence|]. rewrite <- E.
  rewrite removelast_map, <- changes_removelast.
  pose proof (length_changes (removelast close)) as Hc'.
  rewrite length_removelast in Hc'.
  rewrite lastn_cons by (rewrite length_map; lia).
  rewrite lastn_map.
  apply window_mean_full.
  - rewrite length_map, length_lastn; lia.
  - apply forallb_map_finite; auto.
    apply forallb_skipn, changes_finite, forallb_removelast, Hfin.
Qed.

Lemma nonempty_of_length {A} (l : list A) n : (S n <= length l)%nat -> l <> [].
Proof. destruct l; simpl; [lia|discriminate]. Qed.

Lemma rsi_last close :
  forallb is_finite close = true -> (15 <= length close)%nat ->
  rsi_of_rs (rs_at (length close - 1) close) = Spec.rsi 14 close.
Proof.
  intros Hfin Hn. unfold rs_at, Spec.rsi, rsi_of_rs.
  rewrite gain_series_changes, loss_series_changes
    by (apply (nonempty_of_length _ 14); lia).
  rewrite !clipped_window_last by auto using gain_finite, loss_finite.
  reflexivity.
Qed.

Lemma rsi_prev close :
  forallb is_finite close = true -> (16 <= length close)%nat ->
  rsi_of_rs (rs_at (length close - 2) close) = Spec.rsi 14 (removelast close).
Proof.
  intros Hfin Hn. unfold rs_at, Spec.rsi, rsi_of_rs.
  rewrite gain_series_changes, loss_series_changes
    by (apply (nonempty_of_length _ 15); lia).
  rewrite !clipped_window_prev by auto using gain_finite, loss_finite.
  reflexivity.
Qed.

Lemma sma_last close :
  forallb is_finite close = true -> (20 <= length close)%nat ->
  window_mean 20 (window 20 (length close - 1) close) = Spec.sma 20 close.
Proof.
  intros Hfin Hn. rewrite window_last by (apply (nonempty_of_length _ 19); lia).
  unfold Spec.sma. apply window_mean_full.
  - apply length_lastn; lia.
  - now apply forallb_skipn.
Qed.

Lemma nth_last (l : Series) : nth (length l - 1) l NaN = last l NaN.
Proof.
  induction l as [|a l IH]; simpl; auto.
  destruct l as [|b l]; simpl in *; auto.
  now rewrite Nat.sub_0_r in IH.
Qed.

(** ** Sums of zeros and of positive values *)

Lemma is_zero_spec v : is_zero v = true <-> exists q, v = Fin q /\ q == 0.
Proof.
  destruct v as [q| | |]; simpl; split; try discriminate.
  - intros H. exists q. split; auto. now apply Qeq_bool_iff.
  - intros (q' & E & H). inversion E; subst. now apply Qeq_bool_iff.
  - intros (q' & E & _). discriminate.
  - intros (q' & E & _). discriminate.
  - intros (q' & E & _). discriminate.
Qed.

Lemma is_pos_spec v : is_pos v = true <-> exists q, v = Fin q /\ 0 < q.
Proof.
  destruct v as [q| | |]; simpl; split; try discriminate.
  - intros H. exists q. split; auto. rewrite Qlt_alt. now destruct (0 ?= q).
  - intros (q' & E & H). inversion E; subst. rewrite Qlt_alt in H. now rewrite H.
  - intros (q' & E & _). discriminate.
  - intros (q' & E & _). discriminate.
  - intros (q' & E & _). discriminate.
Qed.

Lemma fold_fadd_zero l acc :
  is_zero acc = true -> forallb is_zero l = true ->
  is_zero (fold_left fadd l acc) = true.
Proof.
  revert acc; induction l as [|a l IH]; intros acc Ha Hl; simpl in *; auto.
  apply andb_prop in Hl as [H1 H2]. apply IH; auto.
  apply is_zero_spec in Ha as (x & -> & Hx).
  apply is_zero_spec in H1 as (y & -> & Hy).
  apply is_zero_spec. exists (x + y). split; auto. rewrite Hx, Hy. reflexivity.
Qed.

Lemma of_nat_nonzero n : (0 < n)%nat -> Qeq_bool (inject_Z (Z.of_nat n)) 0 = false.
Proof.
  intros H. destruct (Qeq_bool _ _) eqn:E; auto.
  apply Qeq_bool_iff in E. unfold Qeq in E. simpl in E. lia.
Qed.

Lemma of_nat_pos n : (0 < n)%nat -> 0 < inject_Z (Z.of_nat n).
Proof. intros H. unfold Qlt. simpl. lia. Qed.

Lemma mean_zero l :
  l <> [] -> forallb is_zero l = true -> is_zero (Spec.mean l) = true.
Proof.
  intros Hne Hl. unfold Spec.mean, fsum.
  assert (H : is_zero (fold_left fadd l (Fin 0)) = true)
    by (apply fold_fadd_zero; auto).
  apply is_zero_spec in H as (s & -> & Hs).
  unfold of_nat, fdiv. rewrite of_nat_nonzero by (destruct l; simpl; [congruence|lia]).
  apply is_zero_spec. eexists. split; [reflexivity|].
  rewrite Hs. unfold Qdiv. apply Qmult_0_l.
Qed.

Lemma fold_fadd_pos l acc :
  is_pos acc = true -> forallb is_pos l = true ->
  is_pos (fold_left fadd l acc) = true.
Proof.
  revert acc; induction l as [|a l IH]; intros acc Ha Hl; simpl in *; auto.
  apply andb_prop in Hl as [H1 H2]. apply IH; auto.
  apply is_pos_spec in Ha as (x & -> & Hx).
  apply is_pos_spec in H1 as (y & -> & Hy).
  apply is_pos_spec. exists (x + y). split; auto.
  apply Qlt_trans with (0 + y).
  - now rewrite Qplus_0_l.
  - apply Qplus_lt_le_compat; auto. apply Qle_refl.
Qed.

Lemma mean_pos l :
  l <> [] -> forallb is_pos l = true -> is_pos (Spec.mean l) = true.
Proof.
  intros Hne Hl. unfold Spec.mean, fsum.
  destruct l as [|a l]; [congruence|].
  change (fold_left fadd (a :: l) (Fin 0))
    with (fold_left fadd l (fadd (Fin 0) a)).
  simpl in Hl. apply andb_prop in Hl as [Ha Hl].
  assert (H : is_pos (fold_left fadd l (fadd (Fin 0) a)) = true).
  { apply fold_fadd_pos; auto.
    apply is_pos_spec in Ha as (y & -> & Hy). apply is_pos_spec.
    exists (0 + y). split; auto. now rewrite Qplus_0_l. }
  apply is_pos_spec in H as (s & -> & Hs).
  unfold of_nat, fdiv. rewrite of_nat_nonzero by (simpl; lia).
  apply is_pos_spec. eexists. split; [reflexivity|].
  unfold Qdiv. apply Qmult_lt_0_compat; auto.
  apply Qinv_lt_0_compat, of_nat_pos. simpl; lia.
Qed.

(** A positive mean gain over a zero mean loss saturates the RSI at 100;
    a zero mean gain over a zero mean loss leaves it missing. *)
Lemma rsi_pos_zero g l :
  is_pos g = true -> is_zero l = true -> rsi_of_rs (fdiv g l) = Fin 100.
Proof.
  intros Hg Hl.
  apply is_pos_spec in Hg as (x & -> & Hx).
  destruct l as [y| | |]; try discriminate. simpl in Hl.
  unfold fdiv. rewrite Hl.
  rewrite Qlt_alt in Hx. rewrite <- Qcompare_antisym, Hx. reflexivity.
Qed.

Lemma rsi_zero_zero g l :
  is_zero g = true -> is_zero l = true -> rsi_of_rs (fdiv g l) = NaN.
Proof.
  intros Hg Hl.
  apply is_zero_spec in Hg as (x & -> & Hx).
  destruct l as [y| | |]; try discriminate. simpl in Hl.
  unfold fdiv. rewrite Hl.
  apply Qeq_alt in Hx. rewrite Hx. reflexivity.
Qed.

Lemma gain_zero d : is_zero d = true -> is_zero (Spec.gain d) = true.
Proof.
  intros H. unfold Spec.gain, Spec.vmax.
  destruct (fltb d (Fin 0)); auto.
Qed.

Lemma loss_zero d : is_zero d = true -> is_zero (Spec.loss d) = true.
Proof.
  intros H. apply is_zero_spec in H as (x & -> & Hx).
  unfold Spec.loss, Spec.vmax. destruct (fltb _ _); [reflexivity|].
  apply is_zero_spec. eexists. split; [reflexivity|]. rewrite Hx. reflexivity.
Qed.

Lemma gain_pos d : is_pos d = true -> is_pos (Spec.gain d) = true.
Proof.
  intros H. unfold Spec.gain, Spec.vmax.
  destruct d as [x| | |]; try discriminate. simpl in H.
  unfold fltb. rewrite <- Qcompare_antisym.
  destruct (0 ?= x) eqn:E; try discriminate. simpl. now rewrite E.
Qed.

Lemma loss_of_pos d : is_pos d = true -> is_zero (Spec.loss d) = true.
Proof.
  intros H. unfold Spec.loss, Spec.vmax.
  destruct d as [x| | |]; try discriminate. simpl in H.
  simpl. rewrite Qcompare_opp_0.
  destruct (0 ?= x); try discriminate. reflexivity.
Qed.

Lemma forallb_map_shape (p q : value -> bool) (f : value -> value) l :
  (forall d, p d = true -> q (f d) = true) ->
  forallb p l = true -> forallb q (map f l) = true.
Proof.
  intros Hf. induction l as [|a l IH]; simpl; auto.
  intros H. apply andb_prop in H as [Ha Hl]. now rewrite Hf, IH.
Qed.

Lemma lastn_nonempty n l : (0 < n <= length l)%nat -> Spec.lastn n l <> [].
Proof.
  intros H E. apply (f_equal (@length _)) in E.
  rewrite length_lastn in E by lia. simpl in E. lia.
Qed.

Lemma map_nonempty {A B} (f : A -> B) l : l <> [] -> map f l <> [].
Proof. destruct l; simpl; congruence. Qed.

(** The RSI of a series whose changes are all zero, resp. all positive. *)
Lemma rsi_flat close :
  forallb is_zero (Spec.changes close) = true -> (15 <= length close)%nat ->
  Spec.rsi 14 close = NaN.
Proof.
  intros Hz Hn. unfold Spec.rsi.
  pose proof (length_changes close) as Hc.
  assert (Hne : Spec.lastn 14 (Spec.changes close) <> [])
    by (apply lastn_nonempty; lia).
  assert (Hl : forallb is_zero (Spec.lastn 14 (Spec.changes close)) = true)
    by now apply forallb_skipn.
  apply rsi_zero_zero; apply mean_zero; auto using map_nonempty.
  - apply (forallb_map_shape is_zero); auto using gain_zero.
  - apply (forallb_map_shape is_zero); auto using loss_zero.
Qed.

Lemma rsi_rising close :
  forallb is_pos (Spec.changes close) = true -> (15 <= length close)%nat ->
  Spec.rsi 14 close = Fin 100.
Proof.
  intros Hz Hn. unfold Spec.rsi.
  pose proof (length_changes close) as Hc.
  assert (Hne : Spec.lastn 14 (Spec.changes close) <> [])
    by (apply lastn_nonempty; lia).
  assert (Hl : forallb is_pos (Spec.lastn 14 (Spec.changes close)) = true)
    by now apply forallb_skipn.
  apply rsi_pos_zero.
  - apply mean_pos; auto using map_nonempty.
    apply (forallb_map_shape is_pos); auto using gain_pos.
  - apply mean_zero; auto using map_nonempty.
    apply (forallb_map_shape is_pos); auto using loss_of_pos.
Qed.

Lemma changes_repeat v n :
  Spec.changes (repeat v n) = repeat (fsub v v) (n - 1).
Proof.
  unfold Spec.changes. induction n as [|n IH]; simpl; auto.
  destruct n as [|n]; simpl in *; auto.
  rewrite Nat.sub_0_r in IH. now rewrite IH.
Qed.

Lemma forallb_repeat {A} (p : A -> bool) v n :
  p v = true -> forallb p (repeat v n) = true.
Proof. intros H. induction n; simpl; auto. now rewrite H. Qed.

Lemma changes_constant c n :
  forallb is_zero (Spec.changes (repeat (Fin c) n)) = true.
Proof.
  rewrite changes_repeat. apply forallb_repeat.
  apply is_zero_spec. eexists. split; [reflexivity|]. apply Qplus_opp_r.
Qed.

Lemma changes_increasing close :
  forallb is_finite close = true -> increasing close = true ->
  forallb is_pos (Spec.changes close) = true.
Proof.
  unfold Spec.changes. induction close as [|x t IH]; simpl; auto.
  destruct t as [|y t]; auto.
  intros Hf Hi. apply andb_prop in Hf as [Hx Hf].
  apply andb_prop in Hi as [Hxy Hi].
  specialize (IH Hf Hi). simpl in IH.
  simpl. rewrite IH, andb_true_r.
  simpl in Hf. apply andb_prop in Hf as [Hy _].
  destruct x as [a| | |], y as [b| | |]; try discriminate.
  apply fltb_real in Hxy. apply is_pos_spec. eexists. split; [reflexivity|].
  rewrite <- (Qplus_opp_r a).
  apply Qplus_lt_le_compat; auto. apply Qle_refl.
Qed.

Lemma increasing_removelast close :
  increasing close = true -> increasing (removelast close) = true.
Proof.
  induction close as [|x t IH]; auto.
  destruct t as [|y t]; auto.
  destruct t as [|z t]; auto.
  intros H.
  assert (Hxy : fltb x y = true /\ increasing (y :: z :: t) = true).
  { apply andb_prop. exact H. }
  destruct Hxy as [Hxy Hi]. specialize (IH Hi).
  replace (removelast (x :: y :: z :: t))
    with (x :: y :: removelast (z :: t)) by reflexivity.
  replace (removelast (y :: z :: t))
    with (y :: removelast (z :: t)) in IH by reflexivity.
  apply andb_true_intro. split; assumption.
Qed.

(** ** The daily entry signal *)

(** The answer on a real series with at least 21 observations, in terms
    of the formulas. *)
Lemma daily_entry_signal_real df close :
  lookup "Close" (columns df) = Some close ->
  forallb is_finite close = true ->
  (21 <= length close)%nat ->
  daily_entry_signal df =
    (Ok (if fgtb (last close NaN) (Spec.sma 20 close)
            && fgtb (Spec.rsi 14 close) (Fin 55)
            && fgtb (Spec.rsi 14 close) (Spec.rsi 14 (removelast close))
         then "YES" else "NO"), df).
Proof.
  intros Hc Hfin Hn.
  rewrite (daily_entry_signal_run df close Hc Hn).
  rewrite sma_last, rsi_last, rsi_prev, nth_last by (auto; lia).
  reflexivity.
Qed.

(** The guard of lines 33-34. *)
Lemma daily_entry_signal_guard df close :
  lookup "Close" (columns df) = Some close ->
  (length close < 21)%nat ->
  daily_entry_signal df = (Ok "NO", df).
Proof.
  intros Hc Hn. unfold daily_entry_signal, bind, getitem_copy.
  rewrite Hc. unfold Ok at 1. cbv beta iota.
  destruct (Nat.ltb_spec (length close) 21); [reflexivity|lia].
Qed.

(** C8. With fewer than 21 observations the answer is "NO" whatever the
    prices are; nothing is raised and the frame is handed back as it was. *)
Theorem daily_entry_signal_short df close :
  lookup "Close" (columns df) = Some close ->
  (length close < 21)%nat ->
  daily_entry_signal df = (Ok "NO", df).
Proof.
  exact (daily_entry_signal_guard df close).
Qed.

Lemma daily_entry_signal_short_witness :
  daily_entry_signal (daily_frame (rising 10))
  = (Ok "NO", daily_frame (rising 10)).
Proof.
  apply (daily_entry_signal_short (daily_frame (rising 10)) (rising 10)).
  - reflexivity.
  - simpl. lia.
Defined.

(** C10. With at least 21 observations, whatever the entries of the
    series are, the body raises nothing, answers "YES" or "NO" and hands
    the frame back as it was; on a constant series the answer is "NO". *)
Theorem daily_entry_signal_total df close :
  lookup "Close" (columns df) = Some close ->
  (21 <= length close)%nat ->
  (exists s, daily_entry_signal df = (Ok s, df) /\ (s = "YES" \/ s = "NO"))
  /\ (forall c, close = repeat (Fin c) (length close) ->
      daily_entry_signal df = (Ok "NO", df)).
Proof.
  intros Hc Hn. rewrite (daily_entry_signal_run df close Hc Hn). split.
  - eexists. split; [reflexivity|].
    destruct (_ && _); auto.
  - intros c Hrep.
    assert (Hfin : forallb is_finite close = true)
      by (rewrite Hrep; now apply forallb_repeat).
    rewrite rsi_last by (auto; lia).
    rewrite rsi_flat by (try lia; rewrite Hrep; apply changes_constant).
    rewrite andb_false_r. reflexivity.
Qed.

Lemma daily_entry_signal_total_witness :
  daily_entry_signal (daily_frame (repeat (Fin 5) 30))
  = (Ok "NO", daily_frame (repeat (Fin 5) 30)).
Proof.
  destruct (daily_entry_signal_total (daily_frame (repeat (Fin 5) 30))
              (repeat (Fin 5) 30)) as [_ H].
  - reflexivity.
  - simpl. lia.
  - apply (H 5). reflexivity.
Defined.

(** C3 (as amended). A zero 14-period mean loss raises nothing: over it
    a positive mean gain gives RSI = 100.  On a strictly increasing real
    close series with at least 21 observations the RSI at the latest
    observation is 100 and the answer is "NO", the RSI of the observation
    before being 100 as well; with fewer than 21 observations the answer
    is "NO" by the guard on the length. *)
Theorem zero_loss_rsi :
  (forall g l, is_pos g = true -> is_zero l = true ->
     rsi_of_rs (fdiv g l) = Fin 100)
  /\ (forall df close,
        lookup "Close" (columns df) = Some close ->
        forallb is_finite close = true ->
        increasing close = true ->
        (21 <= length close)%nat ->
        Spec.rsi 14 close = Fin 100
        /\ daily_entry_signal df = (Ok "NO", df))
  /\ (forall df close,
        lookup "Close" (columns df) = Some close ->
        (length close < 21)%nat ->
        daily_entry_signal df = (Ok "NO", df)).
Proof.
  split; [exact rsi_pos_zero|]. split; [|exact daily_entry_signal_guard].
  intros df close Hc Hfin Hinc Hn.
  assert (Hnow : Spec.rsi 14 close = Fin 100)
    by (apply rsi_rising; [now apply changes_increasing|lia]).
  assert (Hprev : Spec.rsi 14 (removelast close) = Fin 100).
  { apply rsi_rising.
    - apply changes_increasing.
      + now apply forallb_removelast.
      + now apply increasing_removelast.
    - rewrite length_removelast. lia. }
  split; [exact Hnow|].
  rewrite (daily_entry_signal_real df close Hc Hfin Hn), Hnow, Hprev.
  rewrite andb_false_r. reflexivity.
Qed.

Lemma zero_loss_rsi_witness :
  rsi_of_rs (fdiv (Fin 3) (Fin 0)) = Fin 100
  /\ Spec.rsi 14 (rising 25) = Fin 100
  /\ daily_entry_signal (daily_frame (rising 25))
     = (Ok "NO", daily_frame (rising 25))
  /\ daily_entry_signal (daily_frame (rising 20))
     = (Ok "NO", daily_frame (rising 20)).
Proof.
  destruct zero_loss_rsi as (H1 & H2 & H3).
  split; [apply H1; reflexivity|].
  destruct (H2 (daily_frame (rising 25)) (rising 25)) as [Ha Hb];
    [reflexivity | reflexivity | reflexivity | simpl; lia |].
  split; [exact Ha|]. split; [exact Hb|].
  apply (H3 (daily_frame (rising 20)) (rising 20)); [reflexivity | simpl; lia].
Defined.

(** C3, as stated, fails on the strictly increasing 20-point series
    1, 2, ..., 20: the latest close is above its 20-period average and
    the RSI formula gives 100, yet the answer is "NO". *)
Lemma rising_20_signal_no :
  fgtb (last (rising 20) NaN) (Spec.sma 20 (rising 20)) = true
  /\ Spec.rsi 14 (rising 20) = Fin 100
  /\ fst (daily_entry_signal (daily_frame (rising 20))) = Ok "NO"
  /\ fst (daily_entry_signal (daily_frame (rising 20))) <> Ok "YES".
Proof.
  repeat split; try (vm_compute; reflexivity).
  vm_compute. discriminate.
Qed.

(** ** Relative strength, RS-Ratio and RS-Momentum *)

Lemma firstn_as_nth (s : Series) n :
  (n <= length s)%nat -> firstn n s = map (fun k => nth k s NaN) (seq 0 n).
Proof.
  revert n; induction s as [|x s IH]; intros [|n] H; simpl in *; auto; try lia.
  rewrite <- seq_shift, map_map. f_equal. apply IH. lia.
Qed.

Lemma window_as_nth (s : Series) a n :
  (a + n <= length s)%nat ->
  skipn a (firstn (a + n) s) = map (fun k => nth (a + k) s NaN) (seq 0 n).
Proof.
  revert s; induction a as [|a IH]; intros s H.
  - simpl. now apply firstn_as_nth.
  - destruct s as [|x s]; simpl in *; [lia|]. apply IH. lia.
Qed.

Lemma is_finite_false_window s t n :
  (t < length s)%nat -> (n <= S t)%nat ->
  (exists k, (S t - n <= k <= t)%nat /\ is_finite (nth k s NaN) = false) ->
  forallb is_finite (window n t s) = false.
Proof.
  intros Ht Hn (k & Hk & Hf).
  destruct (forallb is_finite (window n t s)) eqn:E; auto.
  rewrite forallb_forall in E.
  rewrite <- Hf. symmetry. apply E.
  unfold window. replace (S t) with ((S t - n) + n)%nat at 2 by lia.
  rewrite window_as_nth by lia.
  apply in_map_iff. exists (k - (S t - n))%nat. split.
  - f_equal. lia.
  - apply in_seq. lia.
Qed.

Lemma lookup_map_columns f t s :
  lookup s (map_columns f t) = option_map f (lookup s t).
Proof.
  induction t as [|[k c] t IH]; simpl; auto.
  destruct (String.eqb s k); auto.
Qed.

Lemma lookup_select names cols picked s :
  select names cols = Ok picked -> In s names ->
  lookup s picked = lookup s cols /\ lookup s cols <> None.
Proof.
  revert picked; induction names as [|k names IH]; intros picked Hsel Hin.
  - destruct Hin.
  - simpl in Hsel. destruct (lookup k cols) as [c|] eqn:Ek; [|discriminate].
    destruct (select names cols) as [e|r] eqn:Er; [discriminate|].
    simpl in Hsel. inversion Hsel; subst picked. simpl.
    destruct (String.eqb_spec s k) as [->|Hne].
    + rewrite Ek. split; congruence.
    + destruct Hin as [->|Hin]; [congruence|]. now apply IH.
Qed.

Lemma iloc_last_inv s v : iloc_neg 1 s = inr v -> s <> [] /\ v = last s NaN.
Proof.
  intros H. destruct s as [|x s]; [discriminate|]. split; [discriminate|].
  rewrite iloc_neg_nth in H by (simpl; lia).
  rewrite nth_last in H. unfold Ok in H. congruence.
Qed.

(** ** The ranking table *)

Lemma desc_leb_total a b : desc_leb a b = false -> desc_leb b a = true.
Proof.
  destruct a as [x| | |], b as [y| | |]; simpl; try congruence; auto.
  unfold fgeb, fleb. rewrite <- (Qcompare_antisym x y).
  destruct (x ?= y); simpl; congruence.
Qed.

Lemma desc_leb_trans a b c :
  desc_leb a b = true -> desc_leb b c = true -> desc_leb a c = true.
Proof.
  destruct a as [x| | |], b as [y| | |], c as [z| | |];
    try (simpl; congruence); try (simpl; auto; fail).
  unfold desc_leb. rewrite !fgeb_real. intros H1 H2. now apply Qle_trans with y.
Qed.

Lemma order_eqb_eq a b : order_eqb a b = true <-> a = b.
Proof.
  destruct a as [x|], b as [y|]; simpl; split; try congruence.
  - intros H. apply Nat.eqb_eq in H. congruence.
  - intros H. inversion H. apply Nat.eqb_refl.
Qed.

Lemma row_leb_total a b : row_leb a b = false -> row_leb b a = true.
Proof.
  unfold row_leb.
  destruct (order_eqb (Order a) (Order b)) eqn:E.
  - apply order_eqb_eq in E. rewrite E.
    replace (order_eqb (Order b) (Order b)) with true
      by (symmetry; now apply order_eqb_eq).
    apply desc_leb_total.
  - destruct (order_eqb (Order b) (Order a)) eqn:E'.
    + apply order_eqb_eq in E'. rewrite E' in E.
      assert (order_eqb (Order a) (Order a) = true) by now apply order_eqb_eq.
      congruence.
    + destruct (Order a) as [x|], (Order b) as [y|]; simpl in *; try congruence.
      intros H. apply Nat.leb_gt in H. apply Nat.leb_le. lia.
Qed.

Lemma row_leb_trans a b c :
  row_leb a b = true -> row_leb b c = true -> row_leb a c = true.
Proof.
  unfold row_leb.
  generalize (desc_leb_trans (RS_Ratio a) (RS_Ratio b) (RS_Ratio c)).
  generalize (desc_leb (RS_Ratio a) (RS_Ratio b))
             (desc_leb (RS_Ratio b) (RS_Ratio c))
             (desc_leb (RS_Ratio a) (RS_Ratio c)).
  intros dab dbc dac Hd.
  destruct (Order a) as [x|], (Order b) as [y|], (Order c) as [z|]; simpl;
    repeat match goal with
           | |- context [(?u =? ?v)%nat] => destruct (Nat.eqb_spec u v)
           | |- context [(?u <=? ?v)%nat] => destruct (Nat.leb_spec u v)
           end; subst; auto; try congruence; try lia.
Qed.

Lemma insert_perm x l : Permutation (x :: l) (insert x l).
Proof.
  induction l as [|y l IH]; simpl; auto.
  destruct (row_leb x y); auto.
  rewrite perm_swap. now constructor.
Qed.

Lemma sort_values_perm l : Permutation l (sort_values l).
Proof.
  induction l as [|x l IH]; simpl; auto.
  rewrite <- insert_perm. now constructor.
Qed.

Lemma insert_sorted x l :
  StronglySorted leb_true l -> StronglySorted leb_true (insert x l).
Proof.
  induction 1 as [|y l Hs IH Hall]; simpl.
  - repeat constructor.
  - destruct (row_leb x y) eqn:E.
    + constructor; [now constructor|].
      constructor; [exact E|].
      eapply Forall_impl; [|exact Hall].
      intros z Hz. unfold leb_true in *. now apply row_leb_trans with y.
    + constructor; [exact IH|].
      apply (Permutation_Forall (insert_perm x l)).
      constructor; [|exact Hall].
      now apply row_leb_total.
Qed.

Lemma sort_values_sorted l : StronglySorted leb_true (sort_values l).
Proof.
  induction l as [|x l IH]; simpl; [constructor|].
  now apply insert_sorted.
Qed.

Lemma Order_priority r : labelled r -> Order r = Some (priority r).
Proof.
  unfold labelled, Order, priority, quadrant_labels.
  intros [H|[H|[H|[H|[]]]]]; rewrite <- H; reflexivity.
Qed.

Lemma ranked_of_leb a b :
  labelled a -> labelled b -> row_leb a b = true -> ranked_before a b.
Proof.
  intros Ha Hb. unfold row_leb, ranked_before.
  rewrite (Order_priority a Ha), (Order_priority b Hb). simpl.
  destruct (Nat.eqb_spec (priority a) (priority b)) as [E|E].
  - intros H. right. split; [exact E|].
    destruct (RS_Ratio a) as [x| | |], (RS_Ratio b) as [y| | |];
      simpl in H; simpl; try discriminate; auto.
    now apply fgeb_real.
  - intros H. apply Nat.leb_le in H. left. lia.
Qed.

Lemma StronglySorted_impl {A} (R S : A -> A -> Prop) (P : A -> Prop) l :
  (forall a b, P a -> P b -> R a b -> S a b) ->
  Forall P l -> StronglySorted R l -> StronglySorted S l.
Proof.
  intros HRS HP Hs. induction Hs as [|a l Hs IH Hall]; constructor.
  - apply IH. now inversion HP.
  - inversion HP as [|? ? Pa Pl]; subst.
    rewrite Forall_forall in *. intros b Hb. apply HRS; auto.
Qed.

Lemma latest_data_rows timeframe daily rot names rows :
  latest_data timeframe daily rot names = Ok rows ->
  map Sector rows = names /\ Forall labelled rows.
Proof.
  revert rows; induction names as [|s names IH]; intros rows H; simpl in H.
  - inversion H. split; constructor.
  - destruct (latest_row timeframe daily rot s) as [e|row] eqn:Er;
      [discriminate|].
    destruct (latest_data timeframe daily rot names) as [e|rest] eqn:El;
      [discriminate|].
    simpl in H. inversion H; subst rows; clear H.
    destruct (IH rest eq_refl) as [Hs Hl].
    assert (Hrow : Sector row = s /\ labelled row).
    { unfold latest_row in Er.
      repeat match type of Er with
             | rbind ?r _ = _ => destruct r; simpl in Er; [discriminate|]
             end.
      inversion Er. split; [reflexivity|]. apply get_quadrant_label. }
    destruct Hrow as [Hsec Hlab]. simpl. split; [congruence|]. now constructor.
Qed.

(** C6. The ranking holds exactly the rows of the loop, one per sector,
    ordered by quadrant priority Leading < Improving < Weakening < Lagging
    and, within a quadrant, by RS-Ratio descending. *)
Theorem ranking_sorted timeframe daily rot names latest :
  latest_data timeframe daily rot names = Ok latest ->
  Permutation latest (ranking_df latest)
  /\ Permutation names (map Sector (ranking_df latest))
  /\ StronglySorted ranked_before (ranking_df latest).
Proof.
  intros H. destruct (latest_data_rows _ _ _ _ _ H) as [Hs Hl].
  pose proof (sort_values_perm latest) as Hp.
  split; [exact Hp|]. split.
  - rewrite <- Hs. now apply Permutation_map.
  - apply (StronglySorted_impl leb_true ranked_before labelled).
    + intros a b. apply ranked_of_leb.
    + apply (Permutation_Forall Hp Hl).
    + apply sort_values_sorted.
Qed.

Lemma ranking_sorted_witness :
  map Sector (ranking_df sample_latest) = ["FMCG"; "Bank"; "IT"; "Auto"]
  /\ StronglySorted ranked_before (ranking_df sample_latest).
Proof.
  split; [reflexivity|].
  apply (ranking_sorted "Daily" [] sample_rotation ["Bank"; "IT"; "FMCG"; "Auto"]).
  reflexivity.
Defined.

(** ** The per-quadrant counts *)

Lemma count_of_bump m k k' :
  count_of (bump k' m) k
  = (count_of m k + if String.eqb k k' then 1 else 0)%nat.
Proof.
  unfold count_of. induction m as [|[j n] m IH]; simpl.
  - destruct (String.eqb k k'); reflexivity.
  - destruct (String.eqb_spec k' j) as [->|Hne]; simpl.
    + destruct (String.eqb_spec k j); simpl; lia.
    + destruct (String.eqb_spec k j) as [->|Hkj]; simpl.
      * destruct (String.eqb_spec j k'); [congruence|lia].
      * exact IH.
Qed.

Lemma count_of_fold l m k :
  count_of (fold_left (fun m k => bump k m) l m) k
  = (count_of m k + count_occ string_dec l k)%nat.
Proof.
  revert m; induction l as [|x l IH]; intros m; simpl; [lia|].
  rewrite IH, count_of_bump.
  destruct (String.eqb_spec k x) as [->|Hne].
  - destruct (string_dec x x); [lia|congruence].
  - destruct (string_dec x k); [congruence|lia].
Qed.

Lemma count_of_value_counts l k :
  count_of (value_counts l) k = count_occ string_dec l k.
Proof. unfold value_counts. now rewrite count_of_fold. Qed.

Lemma label_counts_total l :
  Forall (fun q => In q quadrant_labels) l ->
  (count_occ string_dec l "Leading" + count_occ string_dec l "Improving"
   + count_occ string_dec l "Weakening" + count_occ string_dec l "Lagging"
   = length l)%nat.
Proof.
  induction 1 as [|q l Hq Hl IH]; [reflexivity|].
  unfold quadrant_labels in Hq.
  destruct Hq as [H|[H|[H|[H|[]]]]]; subst q; simpl;
    repeat match goal with
           | |- context [string_dec ?a ?b] =>
               destruct (string_dec a b); try discriminate; try congruence
           end; lia.
Qed.

(** C7. The counts hold one entry for each of Leading, Improving,
    Weakening and Lagging, in this order, each the number of ranking rows
    of that quadrant (0 when there is none), and the four counts add up
    to the number of classified sectors. *)
Theorem quadrant_counts_total timeframe daily rot names latest :
  latest_data timeframe daily rot names = Ok latest ->
  let counts := quadrant_counts (ranking_df latest) in
  map fst counts = ["Leading"; "Improving"; "Weakening"; "Lagging"]
  /\ (forall q, In q quadrant_labels ->
        lookup q counts
        = Some (count_occ string_dec (map Quadrant latest) q))
  /\ list_sum (map snd counts) = length names.
Proof.
  intros H counts. destruct (latest_data_rows _ _ _ _ _ H) as [Hs Hl].
  pose proof (sort_values_perm latest) as Hp.
  assert (Hocc : forall q,
             count_of (value_counts (map Quadrant (ranking_df latest))) q
             = count_occ string_dec (map Quadrant latest) q).
  { intros q. rewrite count_of_value_counts.
    symmetry. apply Permutation_count_occ. unfold ranking_df.
    now apply Permutation_map. }
  unfold counts, quadrant_counts, reindex, quadrant_labels.
  fold (count_of (value_counts (map Quadrant (ranking_df latest)))).
  split; [reflexivity|]. split.
  - intros q [E|[E|[E|[E|[]]]]]; subst q; simpl; unfold count_of in Hocc;
      rewrite Hocc; reflexivity.
  - simpl. unfold count_of in Hocc. rewrite !Hocc.
    rewrite <- Hs, length_map, <- (length_map Quadrant latest).
    rewrite Nat.add_0_r, !Nat.add_assoc. apply label_counts_total.
    rewrite Forall_map. exact Hl.
Qed.

Lemma quadrant_counts_total_witness :
  quadrant_counts (ranking_df sample_latest)
  = [("Leading", 2%nat); ("Improving", 1%nat); ("Weakening", 0%nat);
     ("Lagging", 1%nat)]
  /\ list_sum (map snd (quadrant_counts (ranking_df sample_latest))) = 4%nat.
Proof.
  split; [reflexivity|].
  apply (quadrant_counts_total "Daily" [] sample_rotation
           ["Bank"; "IT"; "FMCG"; "Auto"] sample_latest).
  reflexivity.
Defined.

(** ** The run of the script *)

Lemma read_name_bound namespace name v :
  lookup name namespace = Some v -> read_name namespace name = Done v.
Proof. unfold read_name. now intros ->. Qed.

Lemma read_name_unbound namespace name :
  lookup name namespace = None ->
  read_name namespace name = Failed (NameError name).
Proof. unfold read_name. now intros ->. Qed.

(** With [period] bound the loop keeps the first usable candidate. *)
Lemma benchmark_loop_inv yf_download namespace p cands :
  lookup "period" namespace = Some p ->
  exists kept,
    benchmark_with_fallbacks yf_download namespace cands = Done kept
    /\ match kept with
       | Some (name, symbol, df) =>
           exists before after,
             cands = (before ++ (name, symbol) :: after)%list
             /\ df = yf_download symbol p
             /\ usable df = true
             /\ Forall (fun c => usable (yf_download (snd c) p) = false) before
       | None =>
           Forall (fun c => usable (yf_download (snd c) p) = false) cands
       end.
Proof.
  intros Hp. induction cands as [|[name symbol] cands IH]; simpl.
  - exists None. split; [reflexivity|constructor].
  - rewrite (read_name_bound _ _ _ Hp).
    fold (usable (yf_download symbol p)).
    destruct (usable (yf_download symbol p)) eqn:E.
    + exists (Some (name, symbol, yf_download symbol p)).
      split; [reflexivity|]. exists [], cands. repeat split; auto.
    + destruct IH as (kept & Hrun & Hkept). exists kept.
      split; [exact Hrun|].
      destruct kept as [[[n s] df]|].
      * destruct Hkept as (before & after & -> & Hdf & Hu & Hall).
        exists ((name, symbol) :: before), after. repeat split; auto.
      * constructor; auto.
Qed.

Lemma benchmark_loop_unbound yf_download namespace c cands :
  lookup "period" namespace = None ->
  benchmark_with_fallbacks yf_download namespace (c :: cands)
  = Failed (NameError "period").
Proof.
  intros Hp. destruct c as [name symbol]. simpl.
  now rewrite (read_name_unbound _ _ Hp).
Qed.

(** C9. A run without a usable benchmark hands out nothing: it ends in
    an error message and a halt, or in an exception, and both carry no
    table, no ranking, no tails and no counts.  In detail: where [period]
    is not bound the first turn of the candidate loop raises [NameError]
    (line 138), whatever the downloads; with [period] bound and no usable
    candidate download the run is halted (lines 145-151); with a usable
    candidate, line 214 raises [NameError] where [benchmark] is not bound,
    and with it bound to a ticker whose download is empty or has no
    "Close" column the run is halted (lines 216-218). *)
Theorem benchmark_mandatory
    yf_download resample_last timeframe period mode namespace :
  let run := script yf_download resample_last timeframe period mode namespace in
  let no_candidate p :=
    forall name symbol, In (name, symbol) benchmark_candidates ->
      usable (yf_download symbol p) = false in
  (lookup "period" namespace = None -> run = Failed (NameError "period"))
  /\ (forall p, lookup "period" namespace = Some p -> no_candidate p ->
        run = Stopped "Benchmark data could not be loaded from Yahoo Finance.")
  /\ (forall p, lookup "period" namespace = Some p -> ~ no_candidate p ->
        lookup "benchmark" namespace = None ->
        run = Failed (NameError "benchmark"))
  /\ (forall p b,
        lookup "period" namespace = Some p -> ~ no_candidate p ->
        lookup "benchmark" namespace = Some b ->
        usable (yf_download b period) = false ->
        run = Stopped "Benchmark data (NIFTY 50) could not be loaded. Please refresh the app.")
  /\ ((forall p, no_candidate p) \/ (forall b, usable (yf_download b period) = false) ->
      forall o, run <> Done o).
Proof.
  intros run no_candidate.
  assert (Hnone : forall p, lookup "period" namespace = Some p -> no_candidate p ->
            run = Stopped "Benchmark data could not be loaded from Yahoo Finance.").
  { intros p Hp Hno. unfold run, script.
    destruct (benchmark_loop_inv yf_download namespace p benchmark_candidates Hp)
      as (kept & -> & Hkept).
    destruct kept as [[[n s] df]|]; [|reflexivity].
    destruct Hkept as (before & after & Hc & -> & Hu & _).
    rewrite (Hno n s) in Hu; [discriminate|].
    rewrite Hc. apply in_or_app. right. now left. }
  assert (Hsome : forall p, lookup "period" namespace = Some p -> ~ no_candidate p ->
            exists c, benchmark_with_fallbacks yf_download namespace
                        benchmark_candidates = Done (Some c)).
  { intros p Hp Hno.
    destruct (benchmark_loop_inv yf_download namespace p benchmark_candidates Hp)
      as (kept & Hrun & Hkept).
    destruct kept as [c|]; [now exists c|].
    exfalso. apply Hno. intros name symbol Hin.
    rewrite Forall_forall in Hkept. exact (Hkept _ Hin). }
  assert (Hbench : forall p b,
            lookup "period" namespace = Some p -> ~ no_candidate p ->
            lookup "benchmark" namespace = Some b ->
            usable (yf_download b period) = false ->
            run = Stopped "Benchmark data (NIFTY 50) could not be loaded. Please refresh the app.").
  { intros p b Hp Hno Hb Hu. unfold run, script.
    destruct (Hsome p Hp Hno) as (c & ->). simpl.
    rewrite (read_name_bound _ _ _ Hb). simpl.
    unfold usable in Hu.
    destruct (frame_empty (yf_download b period)); [reflexivity|].
    simpl in Hu. rewrite Hu. reflexivity. }
  assert (Hname : forall p, lookup "period" namespace = Some p -> ~ no_candidate p ->
            lookup "benchmark" namespace = None ->
            run = Failed (NameError "benchmark")).
  { intros p Hp Hno Hb. unfold run, script.
    destruct (Hsome p Hp Hno) as (c & ->). simpl.
    now rewrite (read_name_unbound _ _ Hb). }
  assert (Hperiod : lookup "period" namespace = None ->
            run = Failed (NameError "period")).
  { intros Hp. unfold run, script, benchmark_candidates.
    now rewrite (benchmark_loop_unbound _ _ _ _ Hp). }
  repeat split; auto.
  intros H o Hrun.
  destruct (lookup "period" namespace) as [p|] eqn:Hp;
    [|rewrite (Hperiod eq_refl) in Hrun; discriminate].
  destruct (benchmark_loop_inv yf_download namespace p benchmark_candidates Hp)
    as (kept & Hloop & Hkept).
  destruct kept as [[[n s] df]|].
  - assert (Hno : ~ no_candidate p).
    { intros Hno. destruct Hkept as (before & after & Hc & -> & Hu & _).
      rewrite (Hno n s) in Hu; [discriminate|].
      rewrite Hc. apply in_or_app. right. now left. }
    destruct H as [H|H]; [exact (Hno (H p))|].
    destruct (lookup "benchmark" namespace) as [b|] eqn:Hb.
    + rewrite (Hbench p b eq_refl Hno eq_refl (H b)) in Hrun. discriminate.
    + rewrite (Hname p eq_refl Hno eq_refl) in Hrun. discriminate.
  - rewrite (Hnone p eq_refl) in Hrun; [discriminate|].
    intros name symbol Hin. rewrite Forall_forall in Hkept.
    exact (Hkept _ Hin).
Qed.

Lemma benchmark_mandatory_witness :
  script no_download no_resample "Weekly" "2y" "Positional" []
  = Failed (NameError "period")
  /\ script no_download no_resample "Weekly" "2y" "Positional" bound_names
     = Stopped "Benchmark data could not be loaded from Yahoo Finance.".
Proof.
  split.
  - apply (benchmark_mandatory no_download no_resample "Weekly" "2y"
             "Positional" []). reflexivity.
  - apply (benchmark_mandatory no_download no_resample "Weekly" "2y"
             "Positional" bound_names) with (p := "2y").
    + reflexivity.
    + intros name symbol _. reflexivity.
Defined.

(** C5 on the code: with the IT download empty and all other downloads
    usable, the sector loop skips IT and keeps the other sectors, and the
    column selection of line 247 then raises [KeyError]: lines 211-301
    hand out no ranking, no tails and no counts.  The run of the whole
    script ends before that, at line 138, in [NameError]; with [period]
    and [benchmark] bound it ends in the same [KeyError]. *)
Theorem missing_sector_raises :
  let prices :=
    price_table it_missing_download no_resample "Weekly" "2y" (flat_close 30) in
  lookup "IT" (columns prices) = None
  /\ map fst (columns prices)
     = ["Benchmark"; "Bank"; "FMCG"; "Auto"; "Pharma"; "Metal"; "Energy"]
  /\ rrg_calculations (keys sectors) prices = Raise (KeyError "IT")
  /\ engine it_missing_download no_resample "Weekly" "2y" "Positional"
       (flat_close 30)
     = Failed (KeyError "IT")
  /\ script it_missing_download no_resample "Weekly" "2y" "Positional" []
     = Failed (NameError "period")
  /\ script it_missing_download no_resample "Weekly" "2y" "Positional"
       bound_names
     = Failed (KeyError "IT").
Proof. repeat split; vm_compute; reflexivity. Qed.

(** ** Further properties of the script *)

(** X1. The benchmark loop of lines 137-143 reads [period] in every turn:
    where the name is not bound, the first turn raises [NameError] (and
    only an empty candidate list gets past the loop).  With [period]
    bound, the loop keeps the first candidate, in list order, whose
    download for that period is not empty and has a "Close" column,
    together with that download; it keeps nothing exactly when no
    candidate has such a download. *)
Theorem benchmark_first_usable yf_download namespace cands :
  match lookup "period" namespace with
  | None =>
      benchmark_with_fallbacks yf_download namespace cands
      = match cands with
        | [] => Done None
        | _ :: _ => Failed (NameError "period")
        end
  | Some p =>
      exists kept,
        benchmark_with_fallbacks yf_download namespace cands = Done kept
        /\ (kept = None <->
            Forall (fun c => usable (yf_download (snd c) p) = false) cands)
        /\ forall name symbol df, kept = Some (name, symbol, df) ->
             exists before after,
               cands = (before ++ (name, symbol) :: after)%list
               /\ df = yf_download symbol p
               /\ usable df = true
               /\ Forall (fun c => usable (yf_download (snd c) p) = false) before
  end.
Proof.
  destruct (lookup "period" namespace) as [p|] eqn:Hp.
  - destruct (benchmark_loop_inv yf_download namespace p cands Hp)
      as (kept & Hrun & Hkept).
    exists kept. split; [exact Hrun|]. split.
    + destruct kept as [[[n s] df]|]; [|tauto].
      split; [discriminate|]. intros Hall.
      destruct Hkept as (before & after & -> & -> & Hu & _).
      rewrite Forall_forall in Hall.
      assert (Hf : usable (yf_download (snd (n, s)) p) = false)
        by (apply Hall, in_or_app; right; now left).
      simpl in Hf. congruence.
    + intros name symbol df ->. exact Hkept.
  - destruct cands as [|c cands]; [reflexivity|].
    now apply benchmark_loop_unbound.
Qed.

Lemma latest_row_inv timeframe daily rot s row :
  latest_row timeframe daily rot s = Ok row ->
  exists ratio momentum r m sig,
    lookup s (rs_ratio rot) = Some ratio
    /\ lookup s (rs_momentum rot) = Some momentum
    /\ iloc_neg 1 ratio = Ok r /\ iloc_neg 1 momentum = Ok m
    /\ row = mkRow s (round2 r) (round2 m) (get_quadrant r m) sig
    /\ (if String.eqb timeframe "Weekly"
           && in_list (get_quadrant r m) ["Leading"; "Improving"]
        then match lookup s daily with
             | Some df => fst (daily_entry_signal df)
             | None => Raise (KeyError s)
             end
        else if String.eqb timeframe "Weekly" then Ok "—" else Ok "N/A")
       = Ok sig.
Proof.
  unfold latest_row, column. intros H.
  destruct (lookup s (rs_ratio rot)) as [ratio|]; [|discriminate].
  simpl in H. destruct (iloc_neg 1 ratio) as [e|r] eqn:Er; [discriminate|].
  simpl in H.
  destruct (lookup s (rs_momentum rot)) as [momentum|]; [|discriminate].
  simpl in H. destruct (iloc_neg 1 momentum) as [e|m] eqn:Em; [discriminate|].
  simpl in H.
  match type of H with rbind ?sg _ = _ => destruct sg as [e|sig] eqn:Es end;
    [discriminate|].
  simpl in H. inversion H.
  exists ratio, momentum, r, m, sig. repeat split; auto.
Qed.

Lemma signal_yes_or_no df s :
  fst (daily_entry_signal df) = Ok s -> s = "YES" \/ s = "NO".
Proof.
  unfold daily_entry_signal, bind, getitem_copy.
  destruct (lookup "Close" (columns df)) as [close|]; [|discriminate].
  unfold Ok at 1. cbv beta iota.
  destruct (length close <? 21)%nat; [simpl; intros H; inversion H; auto|].
  unfold lift.
  repeat match goal with
         | |- context [iloc_neg ?k ?l] => destruct (iloc_neg k l); [discriminate|]
         end.
  simpl. destruct (_ && _); intros H; inversion H; auto.
Qed.

(** X2. The "Daily Entry" cell of a row of the ranking loop (lines
    270-275): "N/A" unless the timeframe is Weekly; in Weekly, the dash
    for a Weakening or Lagging sector, and for a Leading or Improving one
    the answer of [daily_entry_signal] on that sector's daily frame.  So a
    row says "YES" only in Weekly for a Leading or Improving sector. *)
Theorem daily_entry_gating timeframe daily rot s row :
  latest_row timeframe daily rot s = Ok row ->
  (timeframe <> "Weekly" -> Daily_Entry row = "N/A")
  /\ (timeframe = "Weekly" ->
      Quadrant row = "Weakening" \/ Quadrant row = "Lagging" ->
      Daily_Entry row = "—")
  /\ (timeframe = "Weekly" ->
      Quadrant row = "Leading" \/ Quadrant row = "Improving" ->
      exists df, lookup s daily = Some df
                 /\ fst (daily_entry_signal df) = Ok (Daily_Entry row)
                 /\ (Daily_Entry row = "YES" \/ Daily_Entry row = "NO"))
  /\ (Daily_Entry row = "YES" ->
      timeframe = "Weekly"
      /\ (Quadrant row = "Leading" \/ Quadrant row = "Improving")).
Proof.
  intros H.
  destruct (latest_row_inv _ _ _ _ _ H)
    as (ratio & momentum & r & m & sig & _ & _ & _ & _ & -> & Hsig).
  simpl.
  pose proof (get_quadrant_label r m) as Hq.
  unfold quadrant_labels in Hq.
  destruct (String.eqb_spec timeframe "Weekly") as [Hw|Hw].
  - assert (Hcases :
      ((get_quadrant r m = "Leading" \/ get_quadrant r m = "Improving")
       /\ exists df, lookup s daily = Some df
                     /\ fst (daily_entry_signal df) = Ok sig)
      \/ ((get_quadrant r m = "Weakening" \/ get_quadrant r m = "Lagging")
          /\ sig = "—")).
    { destruct Hq as [Hq|[Hq|[Hq|[Hq|[]]]]]; rewrite <- Hq in *;
        simpl in Hsig.
      - left. split; auto.
        destruct (lookup s daily) as [df|]; [|discriminate]. eauto.
      - left. split; auto.
        destruct (lookup s daily) as [df|]; [|discriminate]. eauto.
      - right. split; auto. inversion Hsig. reflexivity.
      - right. split; auto. inversion Hsig. reflexivity. }
    split; [congruence|].
    destruct Hcases as [[Hlab (df & Hdf & Hs)]|[Hlab ->]].
    + split; [|split].
      * intros _ [E|E]; destruct Hlab as [E'|E']; congruence.
      * intros _ _. exists df. repeat split; auto.
        eapply signal_yes_or_no; eauto.
      * auto.
    + split; [|split].
      * auto.
      * intros _ [E|E]; destruct Hlab as [E'|E']; congruence.
      * discriminate.
  - simpl in Hsig. inversion Hsig. repeat split; congruence.
Qed.

Lemma daily_entry_gating_witness :
  exists row df,
    latest_row "Weekly" [("FMCG", daily_frame yes_series)] sample_rotation "FMCG"
    = Ok row
    /\ lookup "FMCG" [("FMCG", daily_frame yes_series)] = Some df
    /\ fst (daily_entry_signal df) = Ok (Daily_Entry row).
Proof.
  pose proof (daily_entry_gating "Weekly" [("FMCG", daily_frame yes_series)]
                sample_rotation "FMCG") as H.
  destruct (latest_row "Weekly" [("FMCG", daily_frame yes_series)]
              sample_rotation "FMCG") as [e|row] eqn:E;
    [vm_compute in E; discriminate|].
  destruct (H row eq_refl) as (_ & _ & H3 & _).
  destruct H3 as (df & Hdf & Hsig & _).
  - reflexivity.
  - left. vm_compute in E. inversion E. reflexivity.
  - exists row, df. auto.
Defined.

(** ** Rows with missing values *)

Lemma keep_In {A} (mask : list bool) (l : list A) x :
  In x (keep mask l) ->
  exists i, nth_error mask i = Some true /\ nth_error l i = Some x.
Proof.
  unfold keep. revert l; induction mask as [|b mask IH]; intros [|a l] H;
    simpl in H; try contradiction.
  destruct b; simpl in H.
  - destruct H as [->|H].
    + exists 0%nat. auto.
    + destruct (IH l H) as (i & Hm & Hl). exists (S i). auto.
  - destruct (IH l H) as (i & Hm & Hl). exists (S i). auto.
Qed.

Lemma length_keep {A B} (mask : list bool) (l : list A) (l' : list B) :
  length l = length l' -> length (keep mask l) = length (keep mask l').
Proof.
  unfold keep. revert l l'; induction mask as [|b mask IH];
    intros [|a l] [|a' l'] H; simpl in *; auto; try discriminate.
  destruct b; simpl; auto.
Qed.

Lemma keep_all_true {A} (mask : list bool) (l : list A) :
  Forall (fun b => b = true) mask -> length mask = length l -> keep mask l = l.
Proof.
  unfold keep. revert l; induction mask as [|b mask IH]; intros [|a l] Hall Hlen;
    simpl in *; auto; try discriminate.
  inversion Hall; subst. simpl. f_equal. apply IH; auto.
Qed.

Lemma mask_entry cols n i :
  nth_error (map (row_complete cols) (seq 0 n)) i = Some true ->
  (i < n)%nat /\ row_complete cols i = true.
Proof.
  intros H.
  assert (Hi : (i < n)%nat).
  { assert (Hn : nth_error (map (row_complete cols) (seq 0 n)) i <> None)
      by congruence.
    apply nth_error_Some in Hn. now rewrite length_map, length_seq in Hn. }
  split; auto.
  rewrite nth_error_map, nth_error_seq in H.
  destruct (Nat.ltb_spec i n); [|lia]. simpl in H. congruence.
Qed.

Lemma dropna_well_formed df : well_formed df -> well_formed (dropna df).
Proof.
  intros Hwf. unfold well_formed, dropna in *. simpl.
  rewrite Forall_map. eapply Forall_impl; [|exact Hwf].
  intros [k c] Hc. simpl in *. now apply length_keep.
Qed.

Lemma dropna_entries df name col v :
  In (name, col) (columns (dropna df)) -> In v col -> v <> NaN.
Proof.
  unfold dropna. simpl. intros Hin Hv Hnan. subst v.
  apply in_map_iff in Hin as ([k c] & E & Hc). simpl in E.
  inversion E; subst name col; clear E.
  apply keep_In in Hv as (i & Hm & Hi).
  apply mask_entry in Hm as [_ Hrow].
  unfold row_complete in Hrow. rewrite forallb_forall in Hrow.
  specialize (Hrow _ Hc). simpl in Hrow.
  rewrite (nth_error_nth _ _ _ Hi) in Hrow. discriminate.
Qed.

(** X3. After [dropna] no column holds a missing value, every column is
    as long as the index again, and the columns keep their names and
    order. *)
Theorem dropna_complete df :
  well_formed df ->
  well_formed (dropna df)
  /\ column_names (dropna df) = column_names df
  /\ (forall name col v,
        In (name, col) (columns (dropna df)) -> In v col -> v <> NaN).
Proof.
  intros Hwf. split; [|split].
  - now apply dropna_well_formed.
  - unfold column_names, dropna. simpl. now rewrite map_map.
  - intros name col v. apply dropna_entries.
Qed.

Lemma dropna_complete_witness :
  columns (dropna gappy_frame)
  = [("Benchmark", [Fin 10; Fin 13]); ("Bank", [Fin 5; Fin 8])]
  /\ well_formed (dropna gappy_frame).
Proof.
  split; [reflexivity|].
  apply (dropna_complete gappy_frame).
  repeat constructor.
Defined.

Lemma row_complete_of_no_NaN cols i :
  (forall name col, In (name, col) cols ->
     (i < length col)%nat /\ forall v, In v col -> v <> NaN) ->
  row_complete cols i = true.
Proof.
  intros H. unfold row_complete. apply forallb_forall. intros [k c] Hc.
  destruct (H k c Hc) as [Hi Hv]. simpl.
  destruct (nth i c NaN) eqn:E; auto.
  exfalso. apply (Hv NaN); auto. rewrite <- E. now apply nth_In.
Qed.

(** X4. [dropna] changes nothing on a table without missing values; in
    particular the second [dropna] of the script (line 242) is the
    identity when no resampling took place, and dropping twice is the
    same as dropping once. *)
Theorem dropna_idempotent df :
  well_formed df ->
  ((forall name col v, In (name, col) (columns df) -> In v col -> v <> NaN) ->
   dropna df = df)
  /\ dropna (dropna df) = dropna df.
Proof.
  assert (Hid : forall d, well_formed d ->
            (forall name col v, In (name, col) (columns d) -> In v col -> v <> NaN) ->
            dropna d = d).
  { intros d Hwf Hno. unfold dropna. destruct d as [idx cols]. simpl in *.
    unfold well_formed in Hwf. simpl in Hwf. rewrite Forall_forall in Hwf.
    assert (Hmask : Forall (fun b => b = true)
                      (map (row_complete cols) (seq 0 (length idx)))).
    { rewrite Forall_map, Forall_forall. intros i Hi. apply in_seq in Hi.
      apply row_complete_of_no_NaN. intros name col Hc. split.
      - specialize (Hwf _ Hc). simpl in Hwf. lia.
      - intros v Hv. eapply Hno; eauto. }
    f_equal.
    - apply keep_all_true; auto. now rewrite length_map, length_seq.
    - rewrite <- (map_id cols) at 2. apply map_ext_in. intros [k c] Hc. simpl.
      apply (f_equal (pair k)). apply keep_all_true; auto.
      rewrite length_map, length_seq. symmetry. exact (Hwf _ Hc). }
  intros Hwf. split; [now apply Hid|].
  apply Hid; [now apply dropna_well_formed|].
  intros name col v. apply dropna_entries.
Qed.

Lemma dropna_idempotent_witness :
  dropna (dropna gappy_frame) = dropna gappy_frame.
Proof.
  apply (dropna_idempotent gappy_frame).
  repeat constructor.
Defined.

(** ** Columns of the price table *)

Lemma lookup_set_column key s cols k :
  lookup k (set_column key s cols)
  = if String.eqb k key then Some s else lookup k cols.
Proof.
  induction cols as [|[k' c] cols IH]; simpl.
  - reflexivity.
  - destruct (String.eqb_spec key k') as [->|Hne]; simpl.
    + destruct (String.eqb k k'); reflexivity.
    + destruct (String.eqb_spec k k') as [->|Hk].
      * destruct (String.eqb_spec k' key); [congruence|reflexivity].
      * exact IH.
Qed.

Lemma set_column_lengths key s cols n :
  length s = n ->
  Forall (fun c : string * Series => length (snd c) = n) cols ->
  Forall (fun c : string * Series => length (snd c) = n) (set_column key s cols).
Proof.
  intros Hs. induction cols as [|[k c] cols IH]; simpl; intros H.
  - constructor; auto.
  - inversion H; subst. destruct (String.eqb key k); constructor; auto.
Qed.

Lemma at_time_absent t idx vals : ~ In t idx -> at_time t idx vals = NaN.
Proof.
  revert vals; induction idx as [|t' idx IH]; intros vals H; simpl; auto.
  destruct vals as [|v vals]; auto.
  destruct (Z.eqb_spec t t') as [->|Hne].
  - exfalso. apply H. now left.
  - apply IH. intros Hin. apply H. now right.
Qed.

Lemma at_time_present t idx vals j v :
  NoDup idx -> nth_error idx j = Some t -> nth_error vals j = Some v ->
  at_time t idx vals = v.
Proof.
  revert vals j; induction idx as [|t' idx IH]; intros vals j Hnd Hi Hv.
  - destruct j; discriminate.
  - destruct vals as [|v' vals]; [destruct j; discriminate|].
    inversion Hnd as [|? ? Hnot Hnd']; subst. simpl.
    destruct j as [|j]; simpl in *.
    + inversion Hi; inversion Hv; subst. now rewrite Z.eqb_refl.
    + destruct (Z.eqb_spec t t') as [->|Hne].
      * exfalso. apply Hnot. eapply nth_error_In; eauto.
      * eapply IH; eauto.
Qed.

(** X5. Assigning a series as a column of a table that has rows (line
    229): the index and the other columns stay as they are, the table
    stays rectangular, and the new column holds, at each timestamp of the
    table, the value the series has at that timestamp, or a missing value
    where the series has none. *)
Theorem setitem_aligned df key s :
  index df <> [] ->
  well_formed df ->
  index (setitem df key s) = index df
  /\ well_formed (setitem df key s)
  /\ (forall k, k <> key ->
        lookup k (columns (setitem df key s)) = lookup k (columns df))
  /\ exists col,
       lookup key (columns (setitem df key s)) = Some col
       /\ forall i t, nth_error (index df) i = Some t ->
            (~ In t (fst s) -> nth_error col i = Some NaN)
            /\ (forall j v, NoDup (fst s) -> nth_error (fst s) j = Some t ->
                  nth_error (snd s) j = Some v -> nth_error col i = Some v).
Proof.
  intros Hne Hwf. unfold setitem.
  destruct (index df) as [|t0 idx] eqn:Hidx; [congruence|].
  set (col := map (fun t => at_time t (fst s) (snd s)) (t0 :: idx)).
  replace (match snd s with
           | [] | _ :: _ => mkFrame (t0 :: idx) (set_column key col (columns df))
           end) with (mkFrame (t0 :: idx) (set_column key col (columns df)))
    by (destruct (snd s); reflexivity).
  simpl. split; [reflexivity|]. split; [|split].
  - unfold well_formed in *. simpl. rewrite Hidx in Hwf.
    apply set_column_lengths; auto. unfold col. now rewrite length_map.
  - intros k Hk. rewrite lookup_set_column.
    destruct (String.eqb_spec k key); [congruence|reflexivity].
  - exists col. split.
    + rewrite lookup_set_column, String.eqb_refl. reflexivity.
    + intros i t Hi. unfold col. rewrite nth_error_map, Hi. simpl. split.
      * intros Hnot. now rewrite at_time_absent.
      * intros j v Hnd Hj Hv. f_equal. eapply at_time_present; eauto.
Qed.

Lemma setitem_aligned_witness :
  lookup "Bank" (columns (setitem bench_table "Bank" sparse_close))
  = Some [NaN; Fin 7; NaN; Fin 8]
  /\ index (setitem bench_table "Bank" sparse_close) = [1; 2; 3; 4]%Z.
Proof.
  split; [reflexivity|].
  apply (setitem_aligned bench_table "Bank" sparse_close).
  - discriminate.
  - repeat constructor.
Defined.

Lemma lookup_some_iff {A} k (l : list (string * A)) :
  lookup k l <> None <-> In k (map fst l).
Proof.
  induction l as [|[k' v] l IH]; simpl.
  - split; [congruence|tauto].
  - destruct (String.eqb_spec k k') as [->|Hne].
    + split; [auto|congruence].
    + rewrite IH. split; [auto|intros [E|H]; [congruence|auto]].
Qed.

Lemma setitem_has_column df key s k :
  lookup k (columns (setitem df key s)) <> None
  <-> k = key \/ lookup k (columns df) <> None.
Proof.
  unfold setitem.
  assert (H : forall c cols,
            (forall k, lookup k cols <> None <-> lookup k (columns df) <> None) ->
            (lookup k (set_column key c cols) <> None
             <-> k = key \/ lookup k (columns df) <> None)).
  { intros c cols Hcols. rewrite lookup_set_column.
    destruct (String.eqb_spec k key) as [->|Hk].
    - split; [auto|congruence].
    - rewrite Hcols. split; [auto|intros [E|E]; [congruence|auto]]. }
  destruct (index df); destruct (snd s); simpl; apply H;
    try (intros; reflexivity).
  intros k0. rewrite lookup_map_columns.
  destruct (lookup k0 (columns df)); simpl; split; congruence.
Qed.

Lemma add_sector_has_column yf_download period prices sec k :
  lookup k (columns (add_sector yf_download period prices sec)) <> None
  <-> lookup k (columns prices) <> None
      \/ (k = fst sec /\ usable (yf_download (snd sec) period) = true).
Proof.
  unfold add_sector. fold (usable (yf_download (snd sec) period)).
  unfold usable.
  destruct (frame_empty (yf_download (snd sec) period)); simpl.
  - split; [auto|intros [H|[_ H]]; [auto|discriminate]].
  - unfold has_column, frame_col.
    destruct (lookup "Close" (columns (yf_download (snd sec) period))); simpl.
    + rewrite setitem_has_column. tauto.
    + split; [auto|intros [H|[_ H]]; [auto|discriminate]].
Qed.

Lemma fold_add_sector_has_column yf_download period secs prices k :
  lookup k (columns (fold_left (add_sector yf_download period) secs prices))
    <> None
  <-> lookup k (columns prices) <> None
      \/ exists ticker,
           In (k, ticker) secs /\ usable (yf_download ticker period) = true.
Proof.
  revert prices; induction secs as [|[name ticker] secs IH]; intros prices;
    simpl.
  - split; [auto|intros [H|(t & [] & _)]; auto].
  - rewrite IH, add_sector_has_column. simpl. split.
    + intros [[H|[-> Hu]]|(t & Hin & Hu)]; eauto 6.
    + intros [H|(t & [E|Hin] & Hu)]; eauto 6.
      inversion E; subst. auto.
Qed.

(** X6. After the benchmark assignment and the sector loop (lines
    220-229) the price table has the column "Benchmark" and, of the seven
    sectors, exactly those whose download is not empty and has a "Close"
    column: a failed download leaves no column behind. *)
Theorem sector_loop_columns yf_download period bench k :
  lookup k (columns (fold_left (add_sector yf_download period) sectors
                       (setitem empty_frame "Benchmark" bench)))
    <> None
  <-> k = "Benchmark"
      \/ exists ticker,
           In (k, ticker) sectors /\ usable (yf_download ticker period) = true.
Proof.
  rewrite fold_add_sector_has_column, setitem_has_column.
  split.
  - intros [[H|H]|H]; auto. simpl in H. congruence.
  - intros [H|H]; auto.
Qed.

(** ** Complete runs *)

Lemma dropna_names df : column_names (dropna df) = column_names df.
Proof. unfold column_names, dropna. simpl. now rewrite map_map. Qed.

Lemma has_column_names df df' k :
  column_names df' = column_names df ->
  (lookup k (columns df') <> None <-> lookup k (columns df) <> None).
Proof.
  intros H. rewrite !lookup_some_iff. unfold column_names in H. now rewrite H.
Qed.

Lemma engine_done_inv yf_download resample_last timeframe period mode bench o :
  engine yf_download resample_last timeframe period mode bench = Done o ->
  exists rot latest tl,
    rrg_calculations (keys sectors)
      (price_table yf_download resample_last timeframe period bench) = Ok rot
    /\ latest_data timeframe (daily_prices yf_download) rot (keys sectors)
       = Ok latest
    /\ tails (tail_length mode) rot (keys sectors) = Ok tl
    /\ o = mkOutputs (price_table yf_download resample_last timeframe period bench)
             (rs_ratio rot) (rs_momentum rot) (ranking_df latest)
             (quadrant_counts (ranking_df latest)) tl.
Proof.
  unfold engine. cbv zeta.
  change (apply_timeframe resample_last timeframe
            (dropna (fold_left (add_sector yf_download period) sectors
                       (setitem empty_frame "Benchmark" bench))))
    with (price_table yf_download resample_last timeframe period bench).
  intros H.
  destruct (rrg_calculations (keys sectors)
              (price_table yf_download resample_last timeframe period bench))
    as [e|rot] eqn:E1; [discriminate|].
  cbv beta iota delta [obind of_result] in H.
  destruct (latest_data timeframe (daily_prices yf_download) rot (keys sectors))
    as [e|latest] eqn:E2; [discriminate|].
  cbv beta iota delta [obind of_result] in H.
  destruct (tails (tail_length mode) rot (keys sectors)) as [e|tl] eqn:E3;
    [discriminate|].
  cbv beta iota delta [obind of_result] in H.
  inversion H. exists rot, latest, tl. repeat split; auto.
Qed.

Lemma sectors_functional name t t' :
  In (name, t) sectors -> In (name, t') sectors -> t = t'.
Proof.
  unfold sectors. simpl.
  intros H H'.
  repeat (destruct H as [H|H]; [inversion H; subst; clear H|]);
    try contradiction;
    repeat (destruct H' as [H'|H']; [inversion H'; subst; clear H'|]);
    try contradiction; reflexivity.
Qed.

Lemma sectors_not_benchmark t : ~ In ("Benchmark", t) sectors.
Proof.
  unfold sectors. simpl. intros H.
  repeat (destruct H as [H|H]; [discriminate|]). exact H.
Qed.

Lemma in_keys {A} name (d : list (string * A)) v :
  In (name, v) d -> In name (keys d).
Proof. intros H. unfold keys. apply in_map_iff. exists (name, v). auto. Qed.

(** X7. Lines 211-301 run to their end only if every one of the seven
    sector downloads is not empty and has a "Close" column (the
    resampling keeping the columns of a table), and then every sector is
    a column of the price table: with a single failed sector download
    the column selection of line 247 raises and there is no ranking. *)
Theorem complete_run_needs_all_sectors
    yf_download resample_last timeframe period mode bench o :
  (forall rule df, column_names (resample_last rule df) = column_names df) ->
  engine yf_download resample_last timeframe period mode bench = Done o ->
  out_prices o = price_table yf_download resample_last timeframe period bench
  /\ forall name ticker,
       In (name, ticker) sectors ->
       usable (yf_download ticker period) = true
       /\ lookup name (columns (out_prices o)) <> None.
Proof.
  intros Hres Heng.
  destruct (engine_done_inv _ _ _ _ _ _ _ Heng) as (rot & latest & tl & Hrrg & _ & _ & ->).
  cbn [out_prices]. split; [reflexivity|].
  intros name ticker Hin.
  unfold rrg_calculations in Hrrg.
  destruct (select (keys sectors)
              (columns (price_table yf_download resample_last timeframe period bench)))
    as [e|picked] eqn:Hsel; [discriminate|].
  destruct (lookup_select _ _ _ name Hsel (in_keys _ _ _ Hin)) as [_ Hcol].
  split; [|exact Hcol].
  unfold price_table, apply_timeframe in Hcol.
  rewrite (has_column_names _ _ name (dropna_names _)) in Hcol.
  assert (Hcol' : lookup name
            (columns (dropna (fold_left (add_sector yf_download period) sectors
                                (setitem empty_frame "Benchmark" bench)))) <> None).
  { destruct (String.eqb timeframe "Weekly");
      [|destruct (String.eqb timeframe "Monthly")]; auto;
      now rewrite (has_column_names _ _ name (Hres _ _)) in Hcol. }
  rewrite (has_column_names _ _ name (dropna_names _)) in Hcol'.
  apply fold_add_sector_has_column in Hcol' as [H0|(t & Hin' & Hu)].
  - apply setitem_has_column in H0 as [->|H0].
    + exfalso. eapply sectors_not_benchmark; eauto.
    + simpl in H0. congruence.
  - now rewrite (sectors_functional _ _ _ Hin Hin').
Qed.

Lemma complete_run_needs_all_sectors_witness :
  usable (flat_download 2 "^CNXIT" "2y") = true.
Proof.
  assert (E : engine (flat_download 2) no_resample "Daily" "2y" "Swing"
                (flat_close 2) = Done flat_outputs)
    by (vm_compute; reflexivity).
  destruct (complete_run_needs_all_sectors (flat_download 2) no_resample
              "Daily" "2y" "Swing" (flat_close 2) flat_outputs) as [_ H].
  - reflexivity.
  - exact E.
  - apply (H "IT" "^CNXIT"). simpl. auto.
Defined.

(** ** Tails *)

Lemma length_tail_slice n (s : Series) :
  length (tail_slice n s) = Nat.min n (length s).
Proof. unfold tail_slice. rewrite length_skipn. lia. Qed.

Lemma tail_slice_suffix n (s : Series) :
  s = (firstn (length s - n) s ++ tail_slice n s)%list.
Proof. unfold tail_slice. now rewrite firstn_skipn. Qed.

Lemma last_skipn k (s : Series) :
  (k < length s)%nat -> last (skipn k s) NaN = last s NaN.
Proof.
  revert k; induction s as [|x s IH]; intros k Hk; simpl in Hk; [lia|].
  destruct k as [|k]; [reflexivity|].
  simpl skipn. rewrite IH by lia.
  destruct s; [simpl in Hk; lia|reflexivity].
Qed.

Lemma last_tail_slice n (s : Series) :
  (0 < n)%nat -> last (tail_slice n s) NaN = last s NaN.
Proof.
  intros Hn. destruct s as [|x s]; [reflexivity|].
  unfold tail_slice. apply last_skipn. simpl length. lia.
Qed.

Lemma tails_inv n rot names tl :
  tails n rot names = Ok tl ->
  map fst tl = names
  /\ forall s x y, In (s, (x, y)) tl ->
       exists ratio momentum,
         lookup s (rs_ratio rot) = Some ratio
         /\ lookup s (rs_momentum rot) = Some momentum
         /\ x = tail_slice n ratio /\ y = tail_slice n momentum.
Proof.
  revert tl; induction names as [|s names IH]; intros tl H; simpl in H.
  - inversion H. split; [reflexivity|]. intros ? ? ? [].
  - unfold column in H.
    destruct (lookup s (rs_ratio rot)) as [ratio|] eqn:Er; [|discriminate].
    destruct (lookup s (rs_momentum rot)) as [momentum|] eqn:Em; [|discriminate].
    simpl in H.
    destruct (tails n rot names) as [e|rest]; [discriminate|].
    simpl in H. inversion H; subst tl; clear H.
    destruct (IH rest eq_refl) as [Hn Hall]. simpl. split; [congruence|].
    intros s' x y [E|Hin].
    + inversion E; subst. eauto 6.
    + eauto.
Qed.

(** X8. The tails of lines 322-324: one per sector, in the order of the
    sectors; the tail of a series is its last [tail_length] points (all of
    them when there are fewer), so it is an end piece of the series, has
    [min tail_length (length series)] points and, for a positive
    [tail_length], ends in the latest point. *)
Theorem tails_are_end_pieces n rot names tl :
  tails n rot names = Ok tl ->
  map fst tl = names
  /\ forall s x y, In (s, (x, y)) tl ->
       exists ratio momentum,
         lookup s (rs_ratio rot) = Some ratio
         /\ lookup s (rs_momentum rot) = Some momentum
         /\ (exists before, ratio = (before ++ x)%list)
         /\ (exists before, momentum = (before ++ y)%list)
         /\ length x = Nat.min n (length ratio)
         /\ length y = Nat.min n (length momentum)
         /\ ((0 < n)%nat ->
             last x NaN = last ratio NaN /\ last y NaN = last momentum NaN).
Proof.
  intros H. destruct (tails_inv _ _ _ _ H) as [Hn Hall].
  split; [exact Hn|].
  intros s x y Hin.
  destruct (Hall s x y Hin) as (ratio & momentum & Hr & Hm & -> & ->).
  exists ratio, momentum. repeat split; auto.
  - eexists. apply tail_slice_suffix.
  - eexists. apply tail_slice_suffix.
  - apply length_tail_slice.
  - apply length_tail_slice.
  - now apply last_tail_slice.
  - now apply last_tail_slice.
Qed.

Lemma tails_are_end_pieces_witness :
  map fst (match tails 1 sample_rotation ["Bank"; "IT"] with
           | inr tl => tl
           | inl _ => []
           end) = ["Bank"; "IT"].
Proof.
  destruct (tails 1 sample_rotation ["Bank"; "IT"]) as [e|tl] eqn:E;
    [vm_compute in E; discriminate|].
  apply (tails_are_end_pieces 1 sample_rotation ["Bank"; "IT"] tl E).
Defined.

Lemma tail_length_positive mode : (0 < tail_length mode)%nat.
Proof. unfold tail_length. destruct (String.eqb mode "Swing"); lia. Qed.

Lemma latest_data_In timeframe daily rot names rows row :
  latest_data timeframe daily rot names = Ok rows -> In row rows ->
  latest_row timeframe daily rot (Sector row) = Ok row.
Proof.
  revert rows; induction names as [|s names IH]; intros rows H Hin;
    simpl in H.
  - inversion H; subst. destruct Hin.
  - destruct (latest_row timeframe daily rot s) as [e|r] eqn:Er;
      [discriminate|].
    destruct (latest_data timeframe daily rot names) as [e|rest];
      [discriminate|].
    simpl in H. inversion H; subst rows; clear H.
    destruct Hin as [<-|Hin].
    + destruct (latest_row_inv _ _ _ _ _ Er)
        as (? & ? & ? & ? & ? & _ & _ & _ & _ & Hrow & _).
      rewrite Hrow at 1. simpl. exact Er.
    + eapply IH; eauto.
Qed.

Lemma quadrant_counts_sum rows :
  Forall labelled rows ->
  map fst (quadrant_counts rows) = quadrant_labels
  /\ list_sum (map snd (quadrant_counts rows)) = length rows.
Proof.
  intros Hl.
  assert (Hocc : forall q,
             match lookup q (value_counts (map Quadrant rows)) with
             | Some n => n
             | None => 0%nat
             end = count_occ string_dec (map Quadrant rows) q)
    by (intros q; apply count_of_value_counts).
  unfold quadrant_counts, reindex, quadrant_labels.
  split; [reflexivity|]. simpl.
  rewrite !Hocc.
  rewrite <- (length_map Quadrant rows).
  rewrite Nat.add_0_r, !Nat.add_assoc. apply label_counts_total.
  rewrite Forall_map. exact Hl.
Qed.

(** X9. When lines 211-301 and the plot loop run to their end, the
    outputs agree with each other: the ranking has one row for each of
    the seven sectors, the four counts add up to seven, there is one tail
    per sector, and the row of a sector carries the quadrant of the last
    point of that sector's tail. *)
Theorem complete_run_outputs
    yf_download resample_last timeframe period mode bench o :
  engine yf_download resample_last timeframe period mode bench = Done o ->
  Permutation (keys sectors) (map Sector (out_ranking o))
  /\ map fst (out_tails o) = keys sectors
  /\ map fst (out_counts o) = quadrant_labels
  /\ list_sum (map snd (out_counts o)) = 7%nat
  /\ forall row x y,
       In row (out_ranking o) -> In (Sector row, (x, y)) (out_tails o) ->
       x <> [] /\ y <> []
       /\ Quadrant row = get_quadrant (last x NaN) (last y NaN).
Proof.
  intros Heng.
  destruct (engine_done_inv _ _ _ _ _ _ _ Heng)
    as (rot & latest & tl & _ & Hlatest & Htails & ->).
  cbn [out_ranking out_tails out_counts].
  destruct (latest_data_rows _ _ _ _ _ Hlatest) as [Hs Hl].
  pose proof (sort_values_perm latest) as Hp.
  destruct (tails_inv _ _ _ _ Htails) as [Hn Hall].
  assert (Hlab : Forall labelled (ranking_df latest))
    by exact (Permutation_Forall Hp Hl).
  destruct (quadrant_counts_sum _ Hlab) as [Hc1 Hc2].
  split; [rewrite <- Hs; now apply Permutation_map|].
  split; [exact Hn|]. split; [exact Hc1|]. split.
  - rewrite Hc2. unfold ranking_df. rewrite <- (Permutation_length Hp).
    rewrite <- (length_map Sector latest), Hs. reflexivity.
  - intros row x y Hrow Htl.
    assert (Hin : In row latest)
      by (eapply Permutation_in; [symmetry; exact Hp|exact Hrow]).
    pose proof (latest_data_In _ _ _ _ _ _ Hlatest Hin) as Hr.
    destruct (latest_row_inv _ _ _ _ _ Hr)
      as (ratio & momentum & r & m & sig & Hlr & Hlm & Hir & Him & Hrow' & _).
    destruct (Hall _ _ _ Htl) as (ratio' & momentum' & Hlr' & Hlm' & -> & ->).
    rewrite Hlr in Hlr'. rewrite Hlm in Hlm'.
    inversion Hlr'; inversion Hlm'; subst ratio' momentum'.
    rewrite !last_tail_slice by apply tail_length_positive.
    apply iloc_last_inv in Hir as [Hne1 ->].
    apply iloc_last_inv in Him as [Hne2 ->].
    rewrite Hrow'. simpl.
    pose proof (tail_length_positive mode) as Hpos.
    pose proof (length_tail_slice (tail_length mode) ratio) as L1.
    pose proof (length_tail_slice (tail_length mode) momentum) as L2.
    repeat split; auto.
    + intros E. rewrite E in L1. simpl in L1.
      destruct ratio; [congruence|simpl in L1; lia].
    + intros E. rewrite E in L2. simpl in L2.
      destruct momentum; [congruence|simpl in L2; lia].
Qed.

Lemma complete_run_outputs_witness :
  list_sum (map snd (out_counts flat_outputs)) = 7%nat.
Proof.
  assert (E : engine (flat_download 2) no_resample "Daily" "2y" "Swing"
                (flat_close 2) = Done flat_outputs)
    by (vm_compute; reflexivity).
  apply (complete_run_outputs (flat_download 2) no_resample
           "Daily" "2y" "Swing" (flat_close 2) flat_outputs E).
Defined.

(** ** More on the daily entry signal *)

(** X10. A close that is missing or infinite among the last 20
    observations makes the answer "NO": the 20-period average is then
    missing and the first test fails; nothing is raised. *)
Theorem gap_in_last_20_gives_no df close k :
  lookup "Close" (columns df) = Some close ->
  (21 <= length close)%nat ->
  (length close - 20 <= k < length close)%nat ->
  is_finite (nth k close NaN) = false ->
  daily_entry_signal df = (Ok "NO", df).
Proof.
  intros Hc Hn Hk Hf.
  rewrite (daily_entry_signal_run df close Hc Hn).
  rewrite window_mean_gap.
  - reflexivity.
  - rewrite length_window by lia. lia.
  - apply is_finite_false_window; try lia.
    exists k. split; [lia|exact Hf].
Qed.

Lemma gap_in_last_20_gives_no_witness :
  daily_entry_signal (daily_frame gap_series)
  = (Ok "NO", daily_frame gap_series).
Proof.
  apply (gap_in_last_20_gives_no (daily_frame gap_series) gap_series 5).
  - reflexivity.
  - simpl. lia.
  - simpl. lia.
  - reflexivity.
Defined.

Lemma fold_fadd_finite l acc :
  is_finite acc = true -> forallb is_finite l = true ->
  is_finite (fold_left fadd l acc) = true.
Proof.
  revert acc; induction l as [|a l IH]; intros acc Ha Hl; simpl in *; auto.
  apply andb_prop in Hl as [H1 H2]. apply IH; auto.
  destruct acc, a; try discriminate. reflexivity.
Qed.

Lemma mean_finite l :
  l <> [] -> forallb is_finite l = true -> is_finite (Spec.mean l) = true.
Proof.
  intros Hne Hl. unfold Spec.mean, fsum.
  assert (H : is_finite (fold_left fadd l (Fin 0)) = true)
    by (apply fold_fadd_finite; auto).
  destruct (fold_left fadd l (Fin 0)); try discriminate.
  unfold of_nat, fdiv.
  rewrite of_nat_nonzero by (destruct l; simpl; [congruence|lia]).
  reflexivity.
Qed.

Lemma gain_of_nonpos d :
  is_finite d = true -> fltb (Fin 0) d = false -> is_zero (Spec.gain d) = true.
Proof.
  destruct d as [x| | |]; try discriminate. intros _ H.
  unfold Spec.gain, Spec.vmax. unfold fltb in *.
  rewrite <- Qcompare_antisym.
  destruct (0 ?= x) eqn:E; simpl; try discriminate; try reflexivity.
  apply Qeq_alt in E. apply Qeq_bool_iff. now symmetry.
Qed.

(** The RSI over a zero mean gain is not above 55. *)
Lemma rsi_zero_gain g l :
  is_zero g = true -> is_finite l = true ->
  fgtb (rsi_of_rs (fdiv g l)) (Fin 55) = false.
Proof.
  intros Hg Hl.
  destruct l as [y| | |]; try discriminate.
  destruct (Qeq_bool y 0) eqn:Ey.
  - rewrite rsi_zero_zero; auto.
  - apply is_zero_spec in Hg as (x & -> & Hx).
    unfold fdiv. rewrite Ey. unfold rsi_of_rs. unfold fadd at 1.
    assert (H1 : 1 + x / y == 1).
    { rewrite Hx. unfold Qdiv. rewrite Qmult_0_l. apply Qplus_0_r. }
    unfold fdiv.
    destruct (Qeq_bool (1 + x / y) 0) eqn:E1.
    + apply Qeq_bool_iff in E1. rewrite H1 in E1. discriminate.
    + unfold fsub, fneg, fadd, fgtb.
      destruct (fltb (Fin 55) (Fin (100 + - (100 / (1 + x / y))))) eqn:E;
        [|reflexivity].
      apply fltb_real in E. rewrite H1 in E.
      exfalso. revert E. unfold Qlt. simpl. lia.
Qed.

(** X11. When none of the last 14 daily changes of a real close series
    is positive, the answer is "NO": the mean gain is zero, so the RSI is
    0 or missing and the test against 55 fails. *)
Theorem no_gain_gives_no df close :
  lookup "Close" (columns df) = Some close ->
  forallb is_finite close = true ->
  (21 <= length close)%nat ->
  forallb (fun d => negb (fltb (Fin 0) d)) (Spec.lastn 14 (Spec.changes close))
    = true ->
  daily_entry_signal df = (Ok "NO", df).
Proof.
  intros Hc Hfin Hn Hnon.
  rewrite (daily_entry_signal_real df close Hc Hfin Hn).
  pose proof (length_changes close) as Hlc.
  assert (Hne : Spec.lastn 14 (Spec.changes close) <> [])
    by (apply lastn_nonempty; lia).
  assert (Hf : forallb is_finite (Spec.lastn 14 (Spec.changes close)) = true)
    by (apply forallb_skipn, changes_finite, Hfin).
  assert (Hg : forallb is_zero
                 (map Spec.gain (Spec.lastn 14 (Spec.changes close))) = true).
  { rewrite forallb_forall. intros g Hin.
    apply in_map_iff in Hin as (d & <- & Hd).
    rewrite forallb_forall in Hf, Hnon.
    apply gain_of_nonpos; auto.
    specialize (Hnon d Hd). now destruct (fltb (Fin 0) d). }
  assert (Hrsi : fgtb (Spec.rsi 14 close) (Fin 55) = false).
  { unfold Spec.rsi. apply rsi_zero_gain.
    - apply mean_zero; auto using map_nonempty.
    - apply mean_finite; auto using map_nonempty.
      apply forallb_map_finite; auto using loss_finite. }
  rewrite Hrsi, andb_false_r. reflexivity.
Qed.

Lemma no_gain_gives_no_witness :
  daily_entry_signal (daily_frame falling) = (Ok "NO", daily_frame falling).
Proof.
  apply (no_gain_gives_no (daily_frame falling) falling).
  - reflexivity.
  - reflexivity.
  - simpl. lia.
  - vm_compute. reflexivity.
Defined.

(** ** Failures of the ranking loop *)

Lemma signal_missing_close df :
  has_column "Close" df = false ->
  fst (daily_entry_signal df) = Raise (KeyError "Close").
Proof.
  unfold has_column, daily_entry_signal, bind, getitem_copy.
  destruct (lookup "Close" (columns df)); [discriminate|reflexivity].
Qed.

(** X12. One turn of the ranking loop (lines 266-275) raises [IndexError]
    when the sector's RS-Ratio series has no periods, and, in the Weekly
    timeframe, [KeyError] for "Close" when the sector is Leading or
    Improving and its daily frame has no "Close" column; in any other
    timeframe the daily frames are not read, and a sector with at least
    one period gets its row whatever they hold. *)
Theorem latest_row_failures timeframe daily rot s :
  (lookup s (rs_ratio rot) = Some [] ->
   latest_row timeframe daily rot s = Raise IndexError)
  /\ (forall ratio momentum df,
        lookup s (rs_ratio rot) = Some ratio ->
        lookup s (rs_momentum rot) = Some momentum ->
        ratio <> [] -> momentum <> [] ->
        timeframe = "Weekly" ->
        in_list (get_quadrant (last ratio NaN) (last momentum NaN))
                ["Leading"; "Improving"] = true ->
        lookup s daily = Some df ->
        has_column "Close" df = false ->
        latest_row timeframe daily rot s = Raise (KeyError "Close"))
  /\ (forall ratio momentum,
        lookup s (rs_ratio rot) = Some ratio ->
        lookup s (rs_momentum rot) = Some momentum ->
        ratio <> [] -> momentum <> [] ->
        timeframe <> "Weekly" ->
        latest_row timeframe daily rot s
        = Ok (mkRow s (round2 (last ratio NaN)) (round2 (last momentum NaN))
                (get_quadrant (last ratio NaN) (last momentum NaN)) "N/A")).
Proof.
  assert (Hlast : forall l : Series, l <> [] -> iloc_neg 1 l = Ok (last l NaN)).
  { intros l Hl. rewrite iloc_neg_nth, nth_last; auto.
    destruct l; [congruence|simpl; lia]. }
  unfold latest_row, column. split; [|split].
  - intros ->. reflexivity.
  - intros ratio momentum df -> -> Hr Hm -> Hq Hdf Hclose.
    simpl rbind. rewrite (Hlast _ Hr), (Hlast _ Hm). simpl rbind.
    unfold in_list, existsb in Hq.
    rewrite Hq, Hdf, (signal_missing_close df Hclose). reflexivity.
  - intros ratio momentum -> -> Hr Hm Hw.
    simpl rbind. rewrite (Hlast _ Hr), (Hlast _ Hm). simpl rbind.
    destruct (String.eqb_spec timeframe "Weekly"); [congruence|].
    reflexivity.
Qed.

Lemma latest_row_failures_witness :
  latest_row "Weekly" [("FMCG", empty_frame)] sample_rotation "FMCG"
  = Raise (KeyError "Close")
  /\ latest_row "Monthly" [] empty_rotation "Bank" = Raise IndexError
  /\ exists row, latest_row "Monthly" [] sample_rotation "FMCG" = Ok row.
Proof.
  split; [|split].
  - destruct (latest_row_failures "Weekly" [("FMCG", empty_frame)]
                sample_rotation "FMCG") as (_ & H & _).
    apply (H [Fin 99; Fin 103.25] [Fin 99; Fin 100.5] empty_frame);
      try reflexivity; discriminate.
  - destruct (latest_row_failures "Monthly" [] empty_rotation "Bank")
      as (H & _).
    apply H. reflexivity.
  - destruct (latest_row_failures "Monthly" [] sample_rotation "FMCG")
      as (_ & _ & H).
    eexists.
    apply (H [Fin 99; Fin 103.25] [Fin 99; Fin 100.5]);
      try reflexivity; discriminate.
Defined.

(** ** Row styles *)

(** X14. [highlight_row] gives the five cells of a row one and the same
    style, and for rows of the ranking that style tells the quadrant and
    whether the daily entry is "YES": two rows get the same styles exactly
    when they are in the same quadrant and agree on being "YES". *)
Theorem highlight_row_tells a b :
  labelled a -> labelled b ->
  length (highlight_row a) = 5%nat
  /\ (forall s, In s (highlight_row a) -> s = hd "" (highlight_row a))
  /\ (highlight_row a = highlight_row b
      <-> Quadrant a = Quadrant b
          /\ String.eqb (Daily_Entry a) "YES" = String.eqb (Daily_Entry b) "YES").
Proof.
  intros Ha Hb. unfold highlight_row, ranking_columns.
  split; [apply repeat_length|]. split.
  - intros s Hs. apply repeat_spec in Hs. subst s. reflexivity.
  - unfold labelled, quadrant_labels in Ha, Hb.
    destruct Ha as [Ha|[Ha|[Ha|[Ha|[]]]]]; rewrite <- Ha;
      destruct Hb as [Hb|[Hb|[Hb|[Hb|[]]]]]; rewrite <- Hb;
      destruct (String.eqb (Daily_Entry a) "YES");
      destruct (String.eqb (Daily_Entry b) "YES");
      (split;
       [ intros H; apply (f_equal (hd "")) in H; apply String.eqb_eq in H;
         vm_compute in H; first [discriminate H | split; reflexivity]
       | intros [H1 H2]; first [discriminate H1 | discriminate H2 | reflexivity] ]).
Qed.

Lemma highlight_row_tells_witness :
  length (highlight_row (mkRow "IT" (Fin 98) (Fin 102) "Improving" "YES")) = 5%nat.
Proof.
  apply (highlight_row_tells
           (mkRow "IT" (Fin 98) (Fin 102) "Improving" "YES")
           (mkRow "Bank" (Fin 101) (Fin 100) "Leading" "NO"));
    unfold labelled, quadrant_labels; simpl; auto.
Defined.

(** ** Binary64: comparisons, the running mean, series *)

Module Float64Facts.
Import PrimFloat Corelib.Floats.FloatOps FloatAxioms SpecFloat Float64.
Local Open Scope float_scope.

Lemma ltb_nan_l x : (nan <? x) = false.
Proof. rewrite ltb_spec. reflexivity. Qed.

Lemma leb_nan_r x : (x <=? nan) = false.
Proof.
  rewrite leb_spec. change (Prim2SF nan) with S754_nan.
  destruct (Prim2SF x) as [s|s| |s m e]; try destruct s; reflexivity.
Qed.

Lemma div_nan_r x : x / nan = nan.
Proof.
  apply Prim2SF_inj. rewrite div_spec. change (Prim2SF nan) with S754_nan.
  destruct (Prim2SF x); reflexivity.
Qed.

Lemma SFeqb_refl_not_nan x : SFeqb x x = false -> x = S754_nan.
Proof.
  destruct x as [s|s| |s m e]; simpl; auto; try discriminate.
  - destruct s; discriminate.
  - unfold SFeqb, SFcompare.
    destruct s; rewrite Z.compare_refl, Pos.compare_cont_refl; discriminate.
Qed.

Lemma is_nan_eq x : is_nan x = true -> x = nan.
Proof.
  unfold is_nan. rewrite eqb_spec. intros H.
  apply Prim2SF_inj. change (Prim2SF nan) with S754_nan.
  apply SFeqb_refl_not_nan. now destruct (SFeqb (Prim2SF x) (Prim2SF x)).
Qed.

(** A missing momentum falls through to the last branch. *)
Lemma get_quadrant_nan r : Float64.get_quadrant r nan = "Improving".
Proof.
  unfold Float64.get_quadrant.
  rewrite leb_nan_r, ltb_nan_l, !andb_false_r. reflexivity.
Qed.

(** *** The running mean keeps the contract *)

Lemma nobs_add_mean v st :
  nobs (add_mean v st) = (nobs st + if counted v then 1 else 0)%nat.
Proof. unfold add_mean, counted. destruct (v =? v); simpl; lia. Qed.

Lemma nobs_remove_mean v st :
  nobs (remove_mean v st) = (nobs st - if counted v then 1 else 0)%nat.
Proof. unfold remove_mean, counted. destruct (v =? v); simpl; lia. Qed.

Lemma nobs_add_range vals n : forall j st,
  nobs (add_range vals j n st) = (nobs st + count vals j n)%nat.
Proof.
  induction n as [|n IH]; intros j st; simpl; [lia|].
  rewrite IH, nobs_add_mean. lia.
Qed.

Lemma nobs_remove_range vals n : forall j st,
  nobs (remove_range vals j n st) = (nobs st - count vals j n)%nat.
Proof.
  induction n as [|n IH]; intros j st; simpl; [lia|].
  rewrite IH, nobs_remove_mean. lia.
Qed.

Lemma count_le vals n : forall j, (count vals j n <= n)%nat.
Proof.
  induction n as [|n IH]; intros j; simpl; [lia|].
  specialize (IH (S j)). destruct (counted (nth j vals nan)); lia.
Qed.

Lemma count_app vals n m : forall j,
  count vals j (n + m) = (count vals j n + count vals (j + n) m)%nat.
Proof.
  induction n as [|n IH]; intros j; simpl.
  - now rewrite Nat.add_0_r.
  - rewrite IH. replace (S j + n)%nat with (j + S n)%nat by lia. lia.
Qed.

Lemma count_full vals n : forall j,
  count vals j n = n ->
  forall k, (j <= k < j + n)%nat -> counted (nth k vals nan) = true.
Proof.
  induction n as [|n IH]; intros j H k Hk; [lia|].
  simpl in H. pose proof (count_le vals n (S j)).
  destruct (counted (nth j vals nan)) eqn:E; [|lia].
  destruct (Nat.eq_dec k j) as [->|Hne]; [exact E|].
  apply (IH (S j)); lia.
Qed.

Lemma calc_mean_value minp st :
  is_nan (calc_mean minp st) = false -> (minp <= nobs st)%nat.
Proof.
  unfold calc_mean.
  destruct (minp <=? nobs st)%nat eqn:E; [intros _; now apply Nat.leb_le|].
  simpl. discriminate.
Qed.

Lemma length_roll_loop w vals todo : forall st,
  length (roll_loop w vals todo st) = length todo.
Proof. induction todo as [|i todo IH]; intros st; simpl; auto. Qed.

Lemma roll_step w vals i st :
  (i = 0%nat \/ window_counted w vals (i - 1) st) ->
  window_counted w vals i
    (if ((i =? 0) || (i <=? window_start w i))%nat
     then add_range vals (window_start w i) (S i - window_start w i)
            (setup (nth (window_start w i) vals nan))
     else add_range vals i 1
            (remove_range vals (window_start w (i - 1))
               (window_start w i - window_start w (i - 1)) st)).
Proof.
  intros H. unfold window_counted.
  destruct ((i =? 0) || (i <=? window_start w i))%nat eqn:E.
  - rewrite nobs_add_range. reflexivity.
  - apply orb_false_iff in E as [E0 E1].
    apply Nat.eqb_neq in E0. apply Nat.leb_gt in E1.
    destruct H as [H|H]; [contradiction|].
    rewrite nobs_add_range, nobs_remove_range, H.
    unfold window_start in *.
    set (a := (S (i - 1) - w)%nat). set (s := (S i - w)%nat).
    assert (Ha : (a <= s)%nat) by (unfold a, s; lia).
    assert (Hs : (s < i)%nat) by exact E1.
    replace (S (i - 1) - a)%nat with ((s - a) + (i - s))%nat by lia.
    rewrite count_app.
    replace (a + (s - a))%nat with s by lia.
    replace (S i - s)%nat with ((i - s) + 1)%nat by lia.
    rewrite (count_app vals (i - s) 1 s).
    replace (s + (i - s))%nat with i by lia. lia.
Qed.

Lemma roll_loop_counted w vals n : forall a st i,
  (a = 0%nat \/ window_counted w vals (a - 1) st) ->
  (i < n)%nat ->
  exists st',
    nth i (roll_loop w vals (seq a n) st) nan = calc_mean w st'
    /\ window_counted w vals (a + i) st'.
Proof.
  induction n as [|n IH]; intros a st i Hst Hi; [lia|].
  simpl seq. cbn [roll_loop]. cbv zeta.
  pose proof (roll_step w vals a st Hst) as Hstep.
  set (st1 := if ((a =? 0) || (a <=? window_start w a))%nat
              then add_range vals (window_start w a) (S a - window_start w a)
                     (setup (nth (window_start w a) vals nan))
              else add_range vals a 1
                     (remove_range vals (window_start w (a - 1))
                        (window_start w a - window_start w (a - 1)) st)) in *.
  destruct i as [|i].
  - exists st1. split; [reflexivity|]. now rewrite Nat.add_0_r.
  - cbn [nth].
    destruct (IH (S a) st1 i) as (st' & E & Hc); [|lia|].
    + right. replace (S a - 1)%nat with a by lia. exact Hstep.
    + exists st'. split; [exact E|].
      now replace (a + S i)%nat with (S a + i)%nat by lia.
Qed.

Lemma counted_prep v : counted (prep v) = true -> observation v = true.
Proof.
  unfold counted, prep, observation, is_nan.
  destruct (is_infinity v); [vm_compute; discriminate|].
  intros ->. reflexivity.
Qed.

Lemma nth_prep s k : nth k (map prep s) nan = prep (nth k s nan).
Proof. change nan with (prep nan) at 1. apply map_nth. Qed.

(** The running mean of pandas has a value only over a full window of
    observations. *)
Lemma roll_mean_contract : rolling_contract roll_mean.
Proof.
  split.
  - intros w s. unfold roll_mean. now rewrite length_roll_loop, length_seq.
  - intros w s i H. unfold roll_mean in H.
    destruct (Nat.lt_ge_cases i (length s)) as [Hi|Hi].
    + destruct (roll_loop_counted w (map prep s) (length s) 0 (setup 0) i)
        as (st' & E & Hc); [now left|exact Hi|].
      rewrite E in H. apply calc_mean_value in H.
      unfold window_counted in Hc. change (0 + i)%nat with i in Hc.
      pose proof (count_le (map prep s) (S i - window_start w i)
                    (window_start w i)) as Hle.
      unfold window_start in *.
      assert (Hw : (w <= S i)%nat) by lia.
      split; [exact Hw|].
      intros k Hk. apply counted_prep. rewrite <- nth_prep.
      apply (count_full (map prep s) (S i - (S i - w)) (S i - w)); lia.
    + rewrite nth_overflow in H; [discriminate|].
      now rewrite length_roll_loop, length_seq.
Qed.

(** *** Series *)

Lemma nth_map_float (f : float -> float) l i d d' :
  (i < length l)%nat -> nth i (map f l) d = f (nth i l d').
Proof.
  intros H. rewrite (nth_indep _ d (f d')) by now rewrite length_map.
  apply map_nth.
Qed.

Lemma diff64_from_length x s : length (Float64.diff_from x s) = length s.
Proof. revert x; induction s as [|y s IH]; intros x; simpl; auto. Qed.

Lemma diff64_length s : length (Float64.diff s) = length s.
Proof. destruct s; simpl; auto. now rewrite diff64_from_length. Qed.

Lemma diff64_from_nth s : forall x k,
  (k < length s)%nat ->
  nth k (Float64.diff_from x s) nan = nth k s nan - nth k (x :: s) nan.
Proof.
  induction s as [|y s IH]; intros x k Hk; simpl in Hk; [lia|].
  destruct k as [|k]; [reflexivity|].
  cbn [Float64.diff_from nth]. apply IH. lia.
Qed.

Lemma diff64_nth s k :
  (1 <= k < length s)%nat ->
  nth k (Float64.diff s) nan = nth k s nan - nth (k - 1) s nan.
Proof.
  destruct s as [|x s]; simpl; [lia|]. intros Hk.
  destruct k as [|k]; [lia|].
  rewrite diff64_from_nth by lia.
  now replace (S k - 1)%nat with k by lia.
Qed.

Lemma iloc64_nth k s :
  (1 <= k <= length s)%nat ->
  Float64.iloc_neg k s = Ok (nth (length s - k) s nan).
Proof.
  intros Hk. unfold Float64.iloc_neg.
  destruct (Nat.leb_spec k (length s)); [|lia].
  rewrite (nth_error_nth' s nan) by lia. reflexivity.
Qed.

Lemma last64_nth (s : Float64.Series) : nth (length s - 1) s nan = last s nan.
Proof.
  induction s as [|x s IH]; auto.
  destruct s as [|y s]; auto.
  simpl length in *. replace (S (S (length s)) - 1)%nat with (S (length s)) by lia.
  replace (S (length s) - 1)%nat with (length s) in IH by lia.
  exact IH.
Qed.

Lemma gain64_length close :
  length (Float64.gain_series close) = length close.
Proof. unfold Float64.gain_series. now rewrite length_map, diff64_length. Qed.

Lemma loss64_length close :
  length (Float64.loss_series close) = length close.
Proof. unfold Float64.loss_series. now rewrite !length_map, diff64_length. Qed.

Lemma lookup_map_columns64 f t s :
  lookup s (Float64.map_columns f t) = option_map f (lookup s t).
Proof.
  induction t as [|[k c] t IH]; simpl; auto.
  destruct (String.eqb s k); auto.
Qed.

Lemma lookup_select64 names cols picked s :
  Float64.select names cols = Ok picked -> In s names ->
  lookup s picked = lookup s cols /\ lookup s cols <> None.
Proof.
  revert picked; induction names as [|k names IH]; intros picked Hsel Hin.
  - destruct Hin.
  - simpl in Hsel. destruct (lookup k cols) as [c|] eqn:Ek; [|discriminate].
    destruct (Float64.select names cols) as [e|r] eqn:Er; [discriminate|].
    simpl in Hsel. inversion Hsel; subst picked. simpl.
    destruct (String.eqb_spec s k) as [->|Hne].
    + rewrite Ek. split; congruence.
    + destruct Hin as [->|Hin]; [congruence|]. now apply IH.
Qed.

Section Ratio.

Variable rolling_mean : nat -> Float64.Series -> Float64.Series.
Hypothesis contract : rolling_contract rolling_mean.

Lemma ratio64_length s :
  length (Float64.ratio_to_rolling_mean rolling_mean s) = length s.
Proof.
  unfold Float64.ratio_to_rolling_mean.
  rewrite length_zipwith, length_map, (proj1 contract). lia.
Qed.

Lemma ratio64_nth s t :
  (t < length s)%nat ->
  nth t (Float64.ratio_to_rolling_mean rolling_mean s) nan
  = (100 * nth t s nan) / nth t (rolling_mean 14 s) nan.
Proof.
  intros Ht. unfold Float64.ratio_to_rolling_mean.
  rewrite (nth_zipwith _ _ _ _ nan nan)
    by (rewrite ?length_map, ?(proj1 contract); lia).
  now rewrite (nth_map_float _ _ _ _ nan).
Qed.

(** No mean, no ratio. *)
Lemma ratio64_missing s t :
  is_nan (nth t (rolling_mean 14 s) nan) = true ->
  nth t (Float64.ratio_to_rolling_mean rolling_mean s) nan = nan.
Proof.
  intros H. destruct (Nat.lt_ge_cases t (length s)) as [Hl|Hl].
  - rewrite ratio64_nth by lia. rewrite (is_nan_eq _ H). apply div_nan_r.
  - apply nth_overflow. rewrite ratio64_length. lia.
Qed.

Lemma ratio64_warmup s t :
  (t < 13)%nat -> nth t (Float64.ratio_to_rolling_mean rolling_mean s) nan = nan.
Proof.
  intros Ht. apply ratio64_missing.
  destruct (is_nan (nth t (rolling_mean 14 s) nan)) eqn:E; auto.
  apply (proj2 contract) in E. lia.
Qed.

Lemma momentum64_warmup s t :
  (t < 26)%nat ->
  nth t (Float64.ratio_to_rolling_mean rolling_mean
           (Float64.ratio_to_rolling_mean rolling_mean s)) nan = nan.
Proof.
  intros Ht. apply ratio64_missing.
  destruct (is_nan (nth t (rolling_mean 14
              (Float64.ratio_to_rolling_mean rolling_mean s)) nan)) eqn:E; auto.
  apply (proj2 contract) in E as [Hw Hobs].
  specialize (Hobs (S t - 14)%nat ltac:(lia)).
  rewrite ratio64_warmup in Hobs by lia. discriminate.
Qed.

End Ratio.

End Float64Facts.

(** ** The daily entry signal over binary64 *)

Section Binary64.
Import PrimFloat.

Lemma signal64_run (rolling_mean : nat -> Float64.Series -> Float64.Series) df close :
  (forall w s, length (rolling_mean w s) = length s) ->
  lookup "Close" (Float64.columns df) = Some close ->
  (21 <= length close)%nat ->
  let n := length close in
  let avg_gain := rolling_mean 14%nat (Float64.gain_series close) in
  let avg_loss := rolling_mean 14%nat (Float64.loss_series close) in
  let rsi i :=
    Float64.rsi_of_rs
      (div (nth i avg_gain nan) (nth i avg_loss nan)) in
  Float64.daily_entry_signal rolling_mean df
  = (Ok (if (ltb (nth (n - 1) (rolling_mean 20%nat close) nan)
                           (nth (n - 1) close nan)
             && ltb 55%float (rsi (n - 1)%nat)
             && ltb (rsi (n - 2)%nat) (rsi (n - 1)%nat))%bool
         then "YES" else "NO"), df).
Proof.
  intros Hlen Hclose Hn n avg_gain avg_loss rsi.
  unfold Float64.daily_entry_signal, Float64.bind, Float64.getitem_copy.
  rewrite Hclose. unfold Ok. cbv beta iota zeta.
  destruct (Nat.ltb_spec (length close) 21) as [Hlt|_]; [lia|].
  unfold Float64.lift, Float64.ret.
  fold (Float64.gain_series close). fold (Float64.loss_series close).
  fold avg_gain. fold avg_loss.
  assert (Hg : length avg_gain = n)
    by (unfold avg_gain; now rewrite Hlen, Float64Facts.gain64_length).
  assert (Hl : length avg_loss = n)
    by (unfold avg_loss; now rewrite Hlen, Float64Facts.loss64_length).
  set (rsi_series := map Float64.rsi_of_rs (zipwith div avg_gain avg_loss)).
  assert (Hr : length rsi_series = n)
    by (unfold rsi_series; rewrite length_map, length_zipwith; lia).
  assert (Hrsi : forall i, (i < n)%nat -> nth i rsi_series nan = rsi i).
  { intros i Hi. unfold rsi_series, rsi.
    rewrite (Float64Facts.nth_map_float _ _ _ _ nan)
      by (rewrite length_zipwith; lia).
    now rewrite (nth_zipwith _ _ _ _ nan nan) by lia. }
  rewrite (Float64Facts.iloc64_nth 1 close) by lia.
  rewrite (Float64Facts.iloc64_nth 1 (rolling_mean 20%nat close)) by (rewrite Hlen; lia).
  rewrite (Float64Facts.iloc64_nth 1 rsi_series) by lia.
  rewrite (Float64Facts.iloc64_nth 2 rsi_series) by lia.
  unfold Ok. cbv beta iota.
  rewrite Hlen, Hr. fold n.
  rewrite !Hrsi by lia. reflexivity.
Qed.



(** ** Relative strength, RS-Ratio and RS-Momentum over binary64 *)




End Binary64.
